(** * ReactTimeChat-LLM: the client-side session and cache layer

    A shallow embedding of [frontend/src/services/api.ts] (the axios
    instance with its request and response interceptors, [handleError],
    [logout]) and of the react-query mutations of the [useLLM] and
    [useAuth] hooks, with the properties of the token-refresh path and of
    cache invalidation. *)

From Stdlib Require Import ZArith Lia.
From stdpp Require Import base strings pretty gmap list.

Set Warnings "-register-all".

Open Scope string_scope.
Open Scope Z_scope.

(** ** Values received from the network *)

(** A parsed response body, seen as the code sees it ([data as any]).
    Numbers are the integral ones; a body that is not JSON reaches the
    code as a string. *)
Inductive JsVal : Type :=
| JNull
| JBool (b : bool)
| JNum (z : Z)
| JStr (s : string)
| JArr (items : list JsVal)
| JObj (fields : list (string * JsVal)).

(** [if (v)] on a value that is there. *)
Definition js_truthy (v : JsVal) : bool :=
  match v with
  | JNull => false
  | JBool b => b
  | JNum z => negb (z =? 0)
  | JStr s => negb (String.eqb s EmptyString)
  | JArr _ => true
  | JObj _ => true
  end.

(** [if (x)] where [x] may be [undefined] ([None]). *)
Definition truthy (x : option JsVal) : bool :=
  match x with
  | Some v => js_truthy v
  | None => false
  end.

Fixpoint assoc (name : string) (fields : list (string * JsVal)) : option JsVal :=
  match fields with
  | [] => None
  | (k, v) :: rest => if String.eqb k name then Some v else assoc name rest
  end.

(** [data.name] for a [data] that passed [if (data)] and is not a string:
    own properties of an object, [undefined] on anything else. *)
Definition js_get (name : string) (data : JsVal) : option JsVal :=
  match data with
  | JObj fields => assoc name fields
  | _ => None
  end.

Definition is_string (v : JsVal) : bool :=
  match v with
  | JStr _ => true
  | _ => false
  end.

(** ** Requests, responses and errors *)

Record Response : Type := {
  status : Z;
  data : JsVal
}.

(** The request configuration axios carries around; [_retry] is the flag
    the response interceptor adds to it. *)
Record Config : Type := {
  method : string;
  url : string;
  payload : option JsVal;
  headers : gmap string string;
  _retry : bool
}.

(** An [AxiosError]: the configuration of the failed request and the
    response, absent when nothing came back from the network. *)
Record AxiosError : Type := {
  config : Config;
  response : option Response
}.

(** [ApiError] of [@/types]. *)
Record ApiError : Type := {
  message : JsVal;
  status_code : Z;
  details : option JsVal
}.

Definition generic_message : JsVal := JStr "An unexpected error occurred".

(** [error.response?.status || 500] *)
Definition status_or_500 (error : AxiosError) : Z :=
  match response error with
  | Some r => if status r =? 0 then 500 else status r
  | None => 500
  end.

(** The chain of [if]/[else if] of [handleError] on a truthy body. *)
Definition extract_message (body : JsVal) : JsVal :=
  if is_string body then body
  else if truthy (js_get "message" body) then default generic_message (js_get "message" body)
  else if truthy (js_get "detail" body) then default generic_message (js_get "detail" body)
  else if truthy (js_get "error" body) then default generic_message (js_get "error" body)
  else generic_message.

(** [ApiService.handleError] *)
Definition handleError (error : AxiosError) : ApiError :=
  let apiError :=
    {| message := generic_message; status_code := status_or_500 error; details := None |} in
  match response error with
  | Some r =>
      if js_truthy (data r) then
        {| message := extract_message (data r);
           status_code := status_code apiError;
           details := Some (data r) |}
      else apiError
  | None => apiError
  end.

(** ** The browser state and the effects of the code *)

(** A react-query key, as in [['conversation', id]]. *)
Inductive KeyPart : Type :=
| KStr (s : string)
| KNum (n : Z).

Definition QueryKey : Type := list KeyPart.

(** What a promise settles to. *)
Inductive Settled (A : Type) : Type :=
| Resolved (a : A)
| Rejected (e : ApiError).
Arguments Resolved {A} a.
Arguments Rejected {A} e.

(** Effects that return nothing to the code. *)
Inductive Action : Type :=
| SetItem (key value : string)            (* localStorage.setItem *)
| RemoveItem (key : string)               (* localStorage.removeItem *)
| SetHref (target : string)               (* window.location.href = ... *)
| ConsoleError (label : string)           (* console.error *)
| InvalidateQueries (key : QueryKey)      (* queryClient.invalidateQueries *)
| ClearQueries                            (* queryClient.clear *)
| Toast (success : bool) (text : JsVal)   (* toast.success / toast.error *)
| SetUser (u : option JsVal).             (* setUser of useAuth *)

(** Why the model of a call stops short of settling. *)
Inductive Halt : Type :=
| FuelExhausted      (* the nesting depth given to [api] is used up *)
| OutsideTypes.      (* a response body outside its declared TypeScript type *)

(** An asynchronous function as a tree of its effects. [Dispatch] hands a
    request to the network and suspends until the answer arrives ([None]:
    no response at all); [Spawn] is a call of an async function whose
    promise is not awaited. *)
Inductive Prog (A : Type) : Type :=
| Done (a : A)
| GetItem (key : string) (k : option string -> Prog A)
| Act (a : Action) (k : Prog A)
| Dispatch (cfg : Config) (k : option Response -> Prog A)
| Spawn (q : Prog unit) (k : Prog A)
| Stop (why : Halt).
Arguments Done {A} a.
Arguments GetItem {A} key k.
Arguments Act {A} a k.
Arguments Dispatch {A} cfg k.
Arguments Spawn {A} q k.
Arguments Stop {A} why.

(** [await p] followed by the rest of the function. *)
Fixpoint bind {A B : Type} (p : Prog A) (f : A -> Prog B) : Prog B :=
  match p with
  | Done a => f a
  | GetItem key k => GetItem key (fun v => bind (k v) f)
  | Act a k => Act a (bind k f)
  | Dispatch cfg k => Dispatch cfg (fun answer => bind (k answer) f)
  | Spawn q k => Spawn q (bind k f)
  | Stop why => Stop why
  end.

#[export] Instance Prog_bind : MBind Prog := fun A B f p => bind p f.
#[export] Instance Prog_ret : MRet Prog := fun A a => Done a.

(** A query of the cache. *)
Record Query : Type := {
  queryKey : QueryKey;
  cached : JsVal;
  isInvalidated : bool
}.

(** A detached call waiting for the answer to the request it sent. *)
Record Parked : Type := {
  awaiting : Config;
  resume : option Response -> Prog unit
}.

Record World : Type := {
  localStorage : gmap string string;
  href : string;
  sent : list Config;           (* requests handed to the network, oldest first *)
  queries : list Query;         (* the react-query cache *)
  user : option JsVal;
  notices : list Action;        (* console and toast output, oldest first *)
  parked : list Parked
}.

#[export] Instance KeyPart_eq_dec : EqDecision KeyPart.
Proof. solve_decision. Defined.

(** Modelled from the spec: the Query/Mutation Cache of section 4.4 is
    react-query's [QueryClient], a library that is not part of the
    sources. A query matches a filter key when the filter is a prefix of
    its key, part by part. *)
Fixpoint key_matches (filter key : QueryKey) : bool :=
  match filter, key with
  | [], _ => true
  | f :: filter', p :: key' => bool_decide (f = p) && key_matches filter' key'
  | _ :: _, [] => false
  end.

Definition invalidate (filter : QueryKey) (q : Query) : Query :=
  if key_matches filter (queryKey q)
  then {| queryKey := queryKey q; cached := cached q; isInvalidated := true |}
  else q.

(** Modelled from the spec: [invalidate(keyOrKeys)] marks the matching
    entries stale. *)
Definition invalidateQueries (filter : QueryKey) (qs : list Query) : list Query :=
  map (invalidate filter) qs.

(** Modelled from the spec: a read of [key] goes to the network when the
    cache has no entry for it or the entry is marked stale. *)
Definition refetches (key : QueryKey) (qs : list Query) : bool :=
  match List.find (fun q => bool_decide (queryKey q = key)) qs with
  | Some q => isInvalidated q
  | None => true
  end.

Definition with_storage (f : gmap string string -> gmap string string) (w : World) : World :=
  {| localStorage := f (localStorage w); href := href w; sent := sent w;
     queries := queries w; user := user w; notices := notices w; parked := parked w |}.

Definition with_queries (f : list Query -> list Query) (w : World) : World :=
  {| localStorage := localStorage w; href := href w; sent := sent w;
     queries := f (queries w); user := user w; notices := notices w; parked := parked w |}.

Definition perform (a : Action) (w : World) : World :=
  match a with
  | SetItem key value => with_storage (insert key value) w
  | RemoveItem key => with_storage (delete key) w
  | SetHref target =>
      {| localStorage := localStorage w; href := target; sent := sent w;
         queries := queries w; user := user w; notices := notices w; parked := parked w |}
  | InvalidateQueries key => with_queries (invalidateQueries key) w
  | ClearQueries => with_queries (fun _ => []) w
  | SetUser u =>
      {| localStorage := localStorage w; href := href w; sent := sent w;
         queries := queries w; user := u; notices := notices w; parked := parked w |}
  | ConsoleError _ | Toast _ _ =>
      {| localStorage := localStorage w; href := href w; sent := sent w;
         queries := queries w; user := user w; notices := notices w ++ [a]; parked := parked w |}
  end.

(** The request leaves for the network. *)
Definition send (cfg : Config) (w : World) : World :=
  {| localStorage := localStorage w; href := href w; sent := sent w ++ [cfg];
     queries := queries w; user := user w; notices := notices w; parked := parked w |}.

Definition park (t : Parked) (w : World) : World :=
  {| localStorage := localStorage w; href := href w; sent := sent w;
     queries := queries w; user := user w; notices := notices w; parked := parked w ++ [t] |}.

(** Where a call stands when control returns to the event loop. *)
Inductive Status (A : Type) : Type :=
| Finished (a : A)
| Suspended (cfg : Config) (k : option Response -> Prog A)
| Halted (why : Halt).
Arguments Finished {A} a.
Arguments Suspended {A} cfg k.
Arguments Halted {A} why.

(** Run a call up to its first suspension on the network. A spawned call
    runs its own synchronous prefix at once, is parked on the request it
    sent, and the caller goes on. *)
Fixpoint advance {A : Type} (p : Prog A) (w : World) : World * Status A :=
  match p with
  | Done a => (w, Finished a)
  | GetItem key k => advance (k (localStorage w !! key)) w
  | Act a k => advance k (perform a w)
  | Dispatch cfg k => (send cfg w, Suspended cfg k)
  | Spawn q k =>
      match advance q w with
      | (w', Finished _) => advance k w'
      | (w', Suspended cfg r) => advance k (park {| awaiting := cfg; resume := r |} w')
      | (w', Halted why) => (w', Halted why)
      end
  | Stop why => (w, Halted why)
  end.

(** The answer to a suspended call arrives. *)
Definition deliver {A : Type} (s : Status A) (answer : option Response) (w : World)
  : World * Status A :=
  match s with
  | Suspended _ k => advance (k answer) w
  | _ => (w, s)
  end.

(** The outcome of a call run to its end. *)
Inductive Outcome (A : Type) : Type :=
| Settles (a : A) (w : World)
| Halts (why : Halt) (w : World).
Arguments Settles {A} a w.
Arguments Halts {A} why w.

(** The network as the code meets it: the answer to a request, given the
    requests sent so far (the request itself is the last of them). *)
Definition Network : Type := list Config -> Config -> option Response.

(** One call run to its end against a network, every answer arriving
    before anything else happens; calls it spawns stay parked. *)
Fixpoint run {A : Type} (net : Network) (p : Prog A) (w : World) : Outcome A :=
  match p with
  | Done a => Settles a w
  | GetItem key k => run net (k (localStorage w !! key)) w
  | Act a k => run net k (perform a w)
  | Dispatch cfg k => run net (k (net (sent w ++ [cfg])%list cfg)) (send cfg w)
  | Spawn q k =>
      match advance q w with
      | (w', Finished _) => run net k w'
      | (w', Suspended cfg r) => run net k (park {| awaiting := cfg; resume := r |} w')
      | (w', Halted why) => Halts why w'
      end
  | Stop why => Halts why w
  end.

(** ** [ApiService]: the axios instance and its interceptors *)

(** [if (token)] on what [localStorage.getItem] returns. *)
Definition present (token : option string) : bool :=
  match token with
  | Some t => negb (String.eqb t EmptyString)
  | None => false
  end.

Definition bearer (token : string) : string := "Bearer " +:+ token.

(** [config.headers.Authorization = value] *)
Definition set_Authorization (value : string) (c : Config) : Config :=
  {| method := method c; url := url c; payload := payload c;
     headers := <["Authorization" := value]> (headers c); _retry := _retry c |}.

(** [originalRequest._retry = true] *)
Definition mark_retry (c : Config) : Config :=
  {| method := method c; url := url c; payload := payload c;
     headers := headers c; _retry := true |}.

(** The request interceptor, given the result of
    [localStorage.getItem('access_token')]. *)
Definition attach_token (token : option string) (config : Config) : Config :=
  match token with
  | Some t => if present token then set_Authorization (bearer t) config else config
  | None => config
  end.

(** axios' default [validateStatus]. *)
Definition validateStatus (s : Z) : bool := (200 <=? s) && (s <? 300).

(** A request built by [this.api.post(url, data)] and the like: the
    instance defaults and no retry mark. *)
Definition request (m u : string) (body : option JsVal) : Config :=
  {| method := m; url := u; payload := body;
     headers := {["Content-Type" := "application/json"]}; _retry := false |}.

Definition post (u : string) (body : option JsVal) : Config := request "post" u body.
Definition get (u : string) : Config := request "get" u None.
Definition put (u : string) (body : option JsVal) : Config := request "put" u body.
Definition patch (u : string) (body : option JsVal) : Config := request "patch" u body.
Definition delete_ (u : string) : Config := request "delete" u None.

(** [error.response?.status === 401] *)
Definition is_401 (error : AxiosError) : bool :=
  match response error with
  | Some r => status r =? 401
  | None => false
  end.

(** [response.data.access] of a response typed [{ access: string }]. *)
Definition response_access (r : Response) : option string :=
  match js_get "access" (data r) with
  | Some (JStr a) => Some a
  | _ => None
  end.

Definition refresh_body (refreshToken : string) : option JsVal :=
  Some (JObj [("refresh", JStr refreshToken)]).

(** [ApiService.refreshToken], over the instance [api]. *)
Definition refreshToken (api : Config -> Prog (Settled Response)) (token : string)
  : Prog (Settled Response) :=
  api (post "/auth/token/refresh/" (refresh_body token)).

(** [ApiService.logout], over the instance [api]. *)
Definition logout (api : Config -> Prog (Settled Response)) : Prog (Settled unit) :=
  GetItem "refresh_token" (fun token =>
    _ ← (if present token
         then r ← api (post "/auth/logout/" (refresh_body (default EmptyString token)));
              match r with
              | Resolved _ => Done tt
              | Rejected _ => Act (ConsoleError "Logout error:") (Done tt)
              end
         else Done tt);
    Act (RemoveItem "access_token")
      (Act (RemoveItem "refresh_token")
        (Done (Resolved tt)))).

(** The rejection handler of the response interceptor, over the instance
    [api] it calls back into. The promise of [this.api(originalRequest)]
    is returned without [await], so the [catch] covers the refresh call
    only; [this.logout()] is not awaited either. The refresh response is
    typed [{ access: string }]; a body of another shape is not modelled
    further. *)
Definition on_rejected (api : Config -> Prog (Settled Response)) (error : AxiosError)
  : Prog (Settled Response) :=
  let originalRequest := config error in
  if is_401 error && negb (_retry originalRequest) then
    let originalRequest := mark_retry originalRequest in
    GetItem "refresh_token" (fun token =>
      if present token then
        r ← refreshToken api (default EmptyString token);
        match r with
        | Resolved response =>
            match response_access response with
            | Some access =>
                Act (SetItem "access_token" access)
                  (api (set_Authorization (bearer access) originalRequest))
            | None => Stop OutsideTypes
            end
        | Rejected _ =>
            Spawn (_ ← logout api; Done tt)
              (Act (SetHref "/login")
                (Done (Rejected (handleError error))))
        end
      else Done (Rejected (handleError error)))
  else Done (Rejected (handleError error)).

(** What the response interceptor makes of the answer to [config]: a
    response that passes [validateStatus] goes through unchanged, anything
    else goes to the rejection handler. *)
Definition on_answer (api : Config -> Prog (Settled Response)) (config : Config)
    (answer : option Response) : Prog (Settled Response) :=
  match answer with
  | Some r =>
      if validateStatus (status r) then Done (Resolved r)
      else on_rejected api {| config := config; response := Some r |}
  | None => on_rejected api {| config := config; response := None |}
  end.

(** [this.api(config)]: request interceptor, network, response
    interceptor. [depth] bounds how deep calls made from inside the
    rejection handler may nest. *)
Fixpoint api (depth : nat) (config : Config) : Prog (Settled Response) :=
  match depth with
  | O => Stop FuelExhausted
  | S depth' =>
      GetItem "access_token" (fun token =>
        let config := attach_token token config in
        Dispatch config (on_answer (api depth') config))
  end.

(** ** The service methods behind the mutations *)

(** [const response = await ...; return response.data] *)
Definition returning_data (call : Prog (Settled Response)) : Prog (Settled JsVal) :=
  r ← call;
  Done (match r with
        | Resolved resp => Resolved (data resp)
        | Rejected e => Rejected e
        end).

(** [await ...] in a method of type [Promise<void>]. *)
Definition returning_void (call : Prog (Settled Response)) : Prog (Settled unit) :=
  r ← call;
  Done (match r with
        | Resolved _ => Resolved tt
        | Rejected e => Rejected e
        end).

(** [`/llm/conversations/${id}/...`] for an integral [id]. *)
Definition conversation_url (id : Z) (suffix : string) : string :=
  "/llm/conversations/" +:+ pretty id +:+ "/" +:+ suffix.

Section Service.
Variable depth : nat.

Definition createConversation (body : JsVal) : Prog (Settled JsVal) :=
  returning_data (api depth (post "/llm/conversations/" (Some body))).

Definition updateConversation (id : Z) (body : JsVal) : Prog (Settled JsVal) :=
  returning_data (api depth (patch (conversation_url id EmptyString) (Some body))).

Definition deleteConversation (id : Z) : Prog (Settled unit) :=
  returning_void (api depth (delete_ (conversation_url id "delete/"))).

Definition archiveConversation (id : Z) : Prog (Settled unit) :=
  returning_void (api depth (post (conversation_url id "archive/") None)).

Definition unarchiveConversation (id : Z) : Prog (Settled unit) :=
  returning_void (api depth (post (conversation_url id "unarchive/") None)).

Definition sendMessage (chatRequest : JsVal) : Prog (Settled JsVal) :=
  returning_data (api depth (post "/llm/chat/" (Some chatRequest))).

Definition updateUserPreferences (body : JsVal) : Prog (Settled JsVal) :=
  returning_data (api depth (put "/llm/preferences/update/" (Some body))).

(** ** react-query mutations *)

(** [toast.error(error.message || fallback)] *)
Definition toast_error (e : ApiError) (fallback : string) : Action :=
  Toast false (if js_truthy (message e) then message e else JStr fallback).

Definition toast_success (text : string) : Action := Toast true (JStr text).

(** [useMutation({ mutationFn, onSuccess, onError }).mutateAsync]:
    [onSuccess] runs once the mutation function has resolved, [onError]
    once it has rejected, and the caller gets what it settled to. *)
Definition useMutation {A : Type} (mutationFn : Prog (Settled A))
    (onSuccess : A -> list Action) (onError : ApiError -> list Action)
  : Prog (Settled A) :=
  r ← mutationFn;
  foldr Act (Done r)
    match r with
    | Resolved a => onSuccess a
    | Rejected e => onError e
    end.

(** The mutations of [useLLM] that name cache keys. *)
Definition createConversationMutation (body : JsVal) :=
  useMutation (createConversation body)
    (fun _ => [InvalidateQueries [KStr "conversations"]; toast_success "Conversation created!"])
    (fun e => [toast_error e "Failed to create conversation"]).

Definition updateConversationMutation (id : Z) (body : JsVal) :=
  useMutation (updateConversation id body)
    (fun _ => [InvalidateQueries [KStr "conversations"]])
    (fun e => [toast_error e "Failed to update conversation"]).

Definition deleteConversationMutation (id : Z) :=
  useMutation (deleteConversation id)
    (fun _ => [InvalidateQueries [KStr "conversations"]; toast_success "Conversation deleted"])
    (fun e => [toast_error e "Failed to delete conversation"]).

Definition archiveConversationMutation (id : Z) :=
  useMutation (archiveConversation id)
    (fun _ => [InvalidateQueries [KStr "conversations"]; toast_success "Conversation archived"])
    (fun e => [toast_error e "Failed to archive conversation"]).

Definition unarchiveConversationMutation (id : Z) :=
  useMutation (unarchiveConversation id)
    (fun _ => [InvalidateQueries [KStr "conversations"]; toast_success "Conversation unarchived"])
    (fun e => [toast_error e "Failed to unarchive conversation"]).

Definition sendMessageMutation (chatRequest : JsVal) :=
  useMutation (sendMessage chatRequest)
    (fun _ => [InvalidateQueries [KStr "conversations"]])
    (fun e => [toast_error e "Failed to send message"]).

Definition updatePreferencesMutation (body : JsVal) :=
  useMutation (updateUserPreferences body)
    (fun _ => [InvalidateQueries [KStr "preferences"]; toast_success "Preferences updated!"])
    (fun e => [toast_error e "Failed to update preferences"]).

(** [logoutMutation] of [useAuth]. *)
Definition logoutMutation : Prog (Settled unit) :=
  useMutation (logout (api depth))
    (fun _ => [SetUser None; ClearQueries; toast_success "Logged out successfully"])
    (fun _ => [ConsoleError "Logout error:"; SetUser None; ClearQueries]).
End Service.

(** The key under which [useConversation id] caches a conversation. *)
Definition conversation_key (id : Z) : QueryKey := [KStr "conversation"; KNum id].
Definition conversations_key : QueryKey := [KStr "conversations"].

(** ** Several requests in flight *)

(** The calls are issued one after the other before any answer arrives. *)
Fixpoint start_all (depth : nat) (cfgs : list Config) (w : World)
  : World * list (Status (Settled Response)) :=
  match cfgs with
  | [] => (w, [])
  | c :: rest =>
      let '(w1, s) := advance (api depth c) w in
      let '(w2, ss) := start_all depth rest w1 in
      (w2, s :: ss)
  end.

(** The answer to the [i]-th call arrives. *)
Definition deliver_at {A : Type} (i : nat) (answer : option Response)
    (st : World * list (Status A)) : World * list (Status A) :=
  match st.2 !! i with
  | Some s => let '(w', s') := deliver s answer st.1 in (w', <[i := s']> st.2)
  | None => st
  end.

(** Answers arrive in the order of [events]. *)
Definition play {A : Type} (events : list (nat * option Response))
    (st : World * list (Status A)) : World * list (Status A) :=
  foldl (fun st e => deliver_at e.1 e.2 st) st events.

Definition refresh_url : string := "/auth/token/refresh/".

Definition is_refresh (c : Config) : bool := String.eqb (url c) refresh_url.

(** How many token-refresh calls went to the network. *)
Definition refresh_calls (w : World) : nat := length (List.filter is_refresh (sent w)).

(** The state in which a call waits on a request for a token refresh. *)
Definition awaits_refresh {A : Type} (s : Status A) : Prop :=
  match s with
  | Suspended c _ => is_refresh c = true
  | _ => False
  end.

(** The world a run ends in. *)
Definition final {A : Type} (o : Outcome A) : World :=
  match o with
  | Settles _ w => w
  | Halts _ w => w
  end.

(** What the caller of [this.api(config)] gets when the answer goes
    straight through the response interceptor. *)
Definition settle (config : Config) (answer : option Response) : Settled Response :=
  match answer with
  | Some r =>
      if validateStatus (status r) then Resolved r
      else Rejected (handleError {| config := config; response := Some r |})
  | None => Rejected (handleError {| config := config; response := None |})
  end.

(** The request as it leaves: [c] after the request interceptor has run
    in world [w]. *)
Definition outbound (w : World) (c : Config) : Config :=
  attach_token (localStorage w !! "access_token") c.

(** The message of [HttpError] as section 4.2 words it: the body when it
    is a string, else its [message] field, else its [detail] field, else
    its [error] field, else the generic message. *)
Definition spec_message (body : JsVal) : JsVal :=
  if is_string body then body
  else match js_get "message" body with
       | Some m => m
       | None =>
           match js_get "detail" body with
           | Some d => d
           | None => default generic_message (js_get "error" body)
           end
       end.

(** [HttpError] as section 4.2 words it: status code, extracted message,
    raw body as details. *)
Definition spec_HttpError (r : Response) : ApiError :=
  {| message := spec_message (data r); status_code := status r; details := Some (data r) |}.

(** The refresh call as it leaves in world [w] for the stored refresh
    token [rt]. *)
Definition refresh_request (w : World) (rt : string) : Config :=
  outbound w (post "/auth/token/refresh/" (refresh_body rt)).

(** The original request as the rejection handler re-issues it: marked
    retried, with the new access token. *)
Definition retried_request (access : string) (c : Config) : Config :=
  set_Authorization (bearer access) (mark_retry c).

(** The world once request [c] and the refresh call for [rt] have been
    sent from [w] and the new access token has been stored. *)
Definition after_refresh (w : World) (c : Config) (rt access : string) : World :=
  with_storage (insert "access_token" access)
    (send (refresh_request w rt) (send (outbound w c) w)).

(** World [w] after the requests [l] have been sent and nothing else has
    happened. *)
Definition sending (l : list Config) (w : World) : World :=
  {| localStorage := localStorage w; href := href w; sent := sent w ++ l;
     queries := queries w; user := user w; notices := notices w; parked := parked w |}.

(** Request [c] followed by [depth - 1] refresh calls for [rt]. *)
Definition refresh_storm (w : World) (c : Config) (rt : string) (depth : nat) : list Config :=
  match depth with
  | O => []
  | S d => outbound w c :: replicate d (refresh_request w rt)
  end.

(** What the teardown leaves: no token, an empty cache, no user. *)
Definition torn_down (w : World) : Prop :=
  localStorage w !! "access_token" = None /\
  localStorage w !! "refresh_token" = None /\
  queries w = [] /\
  user w = None.

(** The cache after a mutation whose service call is [fn] and whose
    [onSuccess] applies [f] to the cache: [f] is applied to the cache as
    the resolved call left it, and not at all when the call is rejected. *)
Definition after_mutation {A : Type} (net : Network) (fn : Prog (Settled A)) (w : World)
    (f : list Query -> list Query) : list Query :=
  match run net fn w with
  | Settles (Resolved _) w1 => f (queries w1)
  | Settles (Rejected _) w1 => queries w1
  | Halts _ w1 => queries w1
  end.

(** A chat request in conversation 7. *)
Definition hello : JsVal := JObj [("message", JStr "hello"); ("conversation_id", JNum 7)].

(** A call of [api (S depth) c] issued in world [w], waiting for its
    first answer. *)
Definition first_wait (depth : nat) (w : World) (c : Config) : Status (Settled Response) :=
  Suspended (outbound w c) (on_answer (api depth) (outbound w c)).

(** The state of the requests [cfgs], issued from [w], once those listed
    in [answered] have had their 401: nothing is stored or removed, the
    others still wait for their first answer, each answered one waits on
    a refresh call, and there is one more refresh call per answered
    request than the [base] there was. *)
Definition in_flight (depth : nat) (w : World) (cfgs : list Config) (base : nat)
    (answered : list nat) (st : World * list (Status (Settled Response))) : Prop :=
  localStorage st.1 = localStorage w /\
  length st.2 = length cfgs /\
  (forall i c, i ∉ answered -> cfgs !! i = Some c -> st.2 !! i = Some (first_wait depth w c)) /\
  (forall i, i ∈ answered -> exists s, st.2 !! i = Some s /\ awaits_refresh s) /\
  refresh_calls st.1 = (base + length answered)%nat.

(** ** Sample worlds and networks *)

(** A session with both tokens stored and two cached queries that are
    fresh. *)
Definition session : World :=
  {| localStorage := {["access_token" := "stale"; "refresh_token" := "keep"]};
     href := "/chat";
     sent := [];
     queries := [ {| queryKey := [KStr "conversations"]; cached := JArr []; isInvalidated := false |};
                  {| queryKey := [KStr "conversation"; KNum 7]; cached := JObj []; isInvalidated := false |} ];
     user := Some (JObj [("id", JNum 1)]);
     notices := [];
     parked := [] |}.

(** A session whose refresh token is gone. *)
Definition half_session : World :=
  with_storage (delete "refresh_token") session.

(** A server that gives the same answer to everything. *)
Definition always (r : Response) : Network := fun _ _ => Some r.

Definition unauthorized : Response :=
  {| status := 401; data := JObj [("detail", JStr "Token is invalid or expired")] |}.

Definition server_error : Response := {| status := 500; data := JStr EmptyString |}.

Definition ok : Response := {| status := 200; data := JObj [("access", JStr "fresh")] |}.

(** A server on which the access token has expired and the refresh token
    is good: 401 to the first request, 200 to the refresh call and to what
    follows. *)
Definition expired_access : Network :=
  fun history c =>
    if is_refresh c then Some ok
    else if (length history <=? 1)%nat then Some unauthorized
    else Some ok.

(** A server on which the access token has expired and the refresh
    endpoint is broken. *)
Definition broken_refresh : Network :=
  fun _ c => if is_refresh c then Some server_error else Some unauthorized.

(** ** The rest of [ApiService] and of the hooks *)

(** [data.access] and [data.refresh] of a response typed [AuthResponse]. *)
Definition auth_tokens (r : Response) : option (string * string) :=
  match js_get "access" (data r), js_get "refresh" (data r) with
  | Some (JStr access), Some (JStr refresh) => Some (access, refresh)
  | _, _ => None
  end.

(** [ApiService.login]; a body outside [AuthResponse] is not modelled
    further. *)
Definition login (depth : nat) (credentials : JsVal) : Prog (Settled JsVal) :=
  r ← api depth (post "/auth/login/" (Some credentials));
  match r with
  | Resolved response =>
      match auth_tokens response with
      | Some (access, refresh) =>
          Act (SetItem "access_token" access)
            (Act (SetItem "refresh_token" refresh)
              (Done (Resolved (data response))))
      | None => Stop OutsideTypes
      end
  | Rejected e => Done (Rejected e)
  end.


(** [ApiService.getProfile] *)
Definition getProfile (depth : nat) : Prog (Settled JsVal) :=
  returning_data (api depth (get "/auth/profile/")).

(** What [fetch] gives [sendStreamMessage]'s caller: the response whose
    body is the stream, the [Error] thrown on a response that is not
    [ok], or the rejection of [fetch] itself when nothing comes back. *)
Inductive StreamResult : Type :=
| StreamOf (r : Response)
| StreamError (text : string)
| FetchFailed.

(** [`Bearer ${localStorage.getItem('access_token')}`]: a missing token
    is spelled [null]. *)
Definition bearer_or_null (token : option string) : string :=
  "Bearer " +:+ default "null" token.

(** The request [sendStreamMessage] hands to [fetch]. *)
Definition stream_request (baseURL : string) (token : option string) (chatRequest : JsVal)
  : Config :=
  {| method := "POST";
     url := baseURL +:+ "/llm/chat/stream/";
     payload := Some chatRequest;
     headers := {["Content-Type" := "application/json";
                  "Authorization" := bearer_or_null token]};
     _retry := false |}.

(** [ApiService.sendStreamMessage], with [this.api.defaults.baseURL] as
    [baseURL]: a call of [fetch], not of the axios instance. *)
Definition sendStreamMessage (baseURL : string) (chatRequest : JsVal) : Prog StreamResult :=
  GetItem "access_token" (fun token =>
    Dispatch (stream_request baseURL token chatRequest) (fun answer =>
      match answer with
      | Some r =>
          if validateStatus (status r) then Done (StreamOf r)
          else Done (StreamError ("HTTP error! status: " +:+ pretty (status r)))
      | None => Done FetchFailed
      end)).

(** [loginMutation] of [useAuth]. *)
Definition loginMutation (depth : nat) (credentials : JsVal) : Prog (Settled JsVal) :=
  useMutation (login depth credentials)
    (fun d => [SetUser (js_get "user" d); InvalidateQueries [KStr "profile"];
               toast_success "Login successful!"])
    (fun e => [toast_error e "Login failed"]).


(** The state of [useAuth]: the browser state and the [isLoading] flag. *)
Record AuthState : Type := {
  world : World;
  isLoading : bool
}.

(** [checkAuth] of [useAuth], run against [net]; [None] when the profile
    call does not settle within [depth]. *)
Definition checkAuth (net : Network) (depth : nat) (st : AuthState) : option AuthState :=
  let w := world st in
  if negb (present (localStorage w !! "access_token")) then
    Some {| world := w; isLoading := false |}
  else
    match run net (getProfile depth) w with
    | Settles (Resolved userData) w1 =>
        Some {| world := perform (SetUser (Some userData)) w1; isLoading := false |}
    | Settles (Rejected _) w1 =>
        Some {| world := perform (RemoveItem "refresh_token")
                           (perform (RemoveItem "access_token")
                              (perform (ConsoleError "Auth check failed:") w1));
                isLoading := false |}
    | Halts _ _ => None
    end.

(** [refreshConversation] of [useConversation id]. *)
Definition refreshConversation (id : Z) : list Action :=
  [InvalidateQueries [KStr "conversation"; KNum id];
   InvalidateQueries [KStr "messages"; KNum id]].

Definition messages_key (id : Z) : QueryKey := [KStr "messages"; KNum id].

(** The world after a list of synchronous effects. *)
Definition perform_all (l : list Action) (w : World) : World :=
  foldl (fun w a => perform a w) w l.

(** The keys of [localStorage] the service writes. *)
Definition token_key (key : string) : bool :=
  String.eqb key "access_token" || String.eqb key "refresh_token".

(** The effects of the HTTP layer: the two tokens, the page address, the
    console. *)
Definition session_action (a : Action) : bool :=
  match a with
  | SetItem key _ => token_key key
  | RemoveItem key => token_key key
  | SetHref _ => true
  | ConsoleError _ => true
  | InvalidateQueries _ => false
  | ClearQueries => false
  | Toast _ _ => false
  | SetUser _ => false
  end.

(** A call none of whose effects, now or after any answer, in itself or
    in what it spawns, is other than a [session_action]. *)
Inductive session_only : forall {A : Type}, Prog A -> Prop :=
| so_Done {A : Type} (a : A) : session_only (Done a)
| so_GetItem {A : Type} (key : string) (k : option string -> Prog A) :
    (forall v, session_only (k v)) -> session_only (GetItem key k)
| so_Act {A : Type} (a : Action) (k : Prog A) :
    session_action a = true -> session_only k -> session_only (Act a k)
| so_Dispatch {A : Type} (cfg : Config) (k : option Response -> Prog A) :
    (forall answer, session_only (k answer)) -> session_only (Dispatch cfg k)
| so_Spawn {A : Type} (q : Prog unit) (k : Prog A) :
    session_only q -> session_only k -> session_only (Spawn q k)
| so_Stop {A : Type} (why : Halt) : session_only (@Stop A why).

(** What the HTTP layer leaves alone between [w] and [w']: the cache, the
    user, the toasts and console lines already there, every key of
    [localStorage] but the two tokens, and the requests already sent. *)
Definition untouched (w w' : World) : Prop :=
  queries w' = queries w /\
  user w' = user w /\
  (forall key, token_key key = false -> localStorage w' !! key = localStorage w !! key) /\
  (exists more, sent w' = (sent w ++ more)%list).

(** Every parked call goes on as a [session_only] one. *)
Definition parked_session_only (w : World) : Prop :=
  Forall (fun t => forall answer, session_only (resume t answer)) (parked w).

(** A refresh endpoint that never answers 401 and whose successful
    answers carry an [access] string. *)
Definition refresh_well_behaved (net : Network) : Prop :=
  forall history q, is_refresh q = true ->
    match net history q with
    | Some r => status r <> 401 /\
                (validateStatus (status r) = true -> is_Some (response_access r))
    | None => True
    end.



(** A network on which nothing comes back. *)
Definition offline : Network := fun _ _ => None.

(** Nobody logged in: nothing stored, nothing cached. *)
Definition logged_out : World :=
  {| localStorage := ∅; href := "/login"; sent := []; queries := []; user := None;
     notices := []; parked := [] |}.

Definition credentials : JsVal :=
  JObj [("email", JStr "ada@example.org"); ("password", JStr "secret")].

(** A refresh endpoint that answers 200 with an empty access token, on a
    server that answers 401 to everything else. *)
Definition empty_access : Response :=
  {| status := 200; data := JObj [("access", JStr EmptyString)] |}.

Definition empty_refresh : Network :=
  fun _ c => if is_refresh c then Some empty_access else Some unauthorized.

(** ** Basic facts about runs *)

Lemma run_bind {A B : Type} (net : Network) (p : Prog A) (f : A -> Prog B) (w : World) :
  run net (bind p f) w =
  match run net p w with
  | Settles a w' => run net (f a) w'
  | Halts why w' => Halts why w'
  end.
Proof.
  revert B f w. induction p as [A a|A key k IH|A a k IH|A cfg k IH|A q IHq k IHk|A why];
    intros B f w; simpl; auto.
  destruct (advance q w) as [w' [u|cfg r|why]]; auto.
Qed.

Lemma run_mbind {A B : Type} (net : Network) (p : Prog A) (f : A -> Prog B) (w : World) :
  run net (p ≫= f) w =
  match run net p w with
  | Settles a w' => run net (f a) w'
  | Halts why w' => Halts why w'
  end.
Proof. apply run_bind. Qed.

Lemma advance_bind {A B : Type} (p : Prog A) (f : A -> Prog B) (w : World) :
  advance (bind p f) w =
  match advance p w with
  | (w', Finished a) => advance (f a) w'
  | (w', Suspended cfg k) => (w', Suspended cfg (fun answer => bind (k answer) f))
  | (w', Halted why) => (w', Halted why)
  end.
Proof.
  revert B f w. induction p as [A a|A key k IH|A a k IH|A cfg k IH|A q IHq k IHk|A why];
    intros B f w; simpl; auto.
  destruct (advance q w) as [w' [u|cfg r|why]]; auto.
Qed.

(** [run] is [advance] with each answer taken from the network as soon
    as the call suspends. *)
Lemma run_advance {A : Type} (net : Network) (p : Prog A) (w : World) :
  run net p w =
  match advance p w with
  | (w', Finished a) => Settles a w'
  | (w', Suspended cfg k) => run net (k (net (sent w') cfg)) w'
  | (w', Halted why) => Halts why w'
  end.
Proof.
  revert w. induction p as [A a|A key k IH|A a k IH|A cfg k IH|A q IHq k IHk|A why];
    intros w; simpl; auto.
  destruct (advance q w) as [w' [u|cfg r|why]]; auto.
Qed.

Lemma run_api_S (net : Network) (depth : nat) (c : Config) (w : World) :
  run net (api (S depth) c) w =
  let c' := attach_token (localStorage w !! "access_token") c in
  run net (on_answer (api depth) c' (net (sent w ++ [c'])%list c')) (send c' w).
Proof. reflexivity. Qed.

(** The rejection handler does nothing but reject when the status is not
    401 or the request carries the retry mark. *)
Lemma on_rejected_passes (f : Config -> Prog (Settled Response)) (error : AxiosError) :
  is_401 error && negb (_retry (config error)) = false ->
  on_rejected f error = Done (Rejected (handleError error)).
Proof. intros H. unfold on_rejected. rewrite H. reflexivity. Qed.

Lemma on_answer_settles (f : Config -> Prog (Settled Response)) (c : Config)
    (answer : option Response) :
  is_401 {| config := c; response := answer |} && negb (_retry c) = false ->
  on_answer f c answer = Done (settle c answer).
Proof.
  intros H. unfold on_answer, settle. destruct answer as [r|].
  - destruct (validateStatus (status r)); [reflexivity|].
    apply on_rejected_passes. exact H.
  - apply on_rejected_passes. exact H.
Qed.

Lemma attach_token_retry (token : option string) (c : Config) :
  _retry (attach_token token c) = _retry c.
Proof. unfold attach_token. destruct token as [t|]; [destruct (present (Some t))|]; reflexivity. Qed.


(** The step every proof about the refresh path starts with: the answer
    has status 401 ([Hs]) and the request carries no retry mark
    ([Hretry]), so the response interceptor enters its [try] block. *)
Ltac enter_handler Hs Hretry :=
  unfold on_answer; rewrite Hs; change (validateStatus 401) with false; cbv iota;
  unfold on_rejected, is_401; cbn [config response]; rewrite Hs;
  change (401 =? 401) with true;
  unfold outbound at 1; rewrite attach_token_retry, Hretry;
  cbn [negb andb]; cbv iota.

(** Lookups in a [localStorage] from which both tokens were removed. *)
Ltac tokens_removed :=
  simpl; rewrite ?lookup_delete_eq, ?lookup_delete_ne by discriminate;
  rewrite ?lookup_delete_eq; try reflexivity.

(** ** The request interceptor *)

(** C9, as stated, fails on the request the rejection handler re-issues:
    when the refresh call is answered with an empty access token, that
    empty string is what is stored, so [if (token)] finds no token, and
    the request still goes out with the [Authorization] header the
    handler gave it. *)
Lemma reissued_request_keeps_header_counterexample :
  let c := get "/llm/models/" in
  let w3 := after_refresh session c "keep" EmptyString in
  let c3 := retried_request EmptyString (outbound session c) in
  final (run empty_refresh (api 2 c) session) = send c3 w3 /\
  localStorage w3 !! "access_token" = Some EmptyString /\
  present (localStorage w3 !! "access_token") = false /\
  outbound w3 c3 = c3 /\
  headers c3 !! "Authorization" <> None.
Proof.
  cbv zeta. split; [vm_compute; reflexivity|].
  split; [vm_compute; reflexivity|].
  split; [vm_compute; reflexivity|].
  split; [vm_compute; reflexivity|].
  vm_compute. discriminate.
Qed.

(** C9 (amended): every request that goes through the axios instance
    leaves as the request interceptor made it: with [Authorization] set
    to the text [Bearer ] followed by the access token when
    [localStorage] holds a non-empty one, and with its headers as they
    were otherwise; method, address, body, retry mark and every other
    header are never changed. A request the service builds has no
    [Authorization] header of its own, so it leaves without one when no
    non-empty token is stored; the request re-issued after a refresh
    keeps the header the rejection handler gave it. *)
Theorem authorization_attached_iff_token (depth : nat) (c : Config) (w : World) :
  exists c' k,
    advance (api (S depth) c) w = (send c' w, Suspended c' k) /\
    headers c' !! "Authorization" =
      match localStorage w !! "access_token" with
      | Some t => if String.eqb t EmptyString then headers c !! "Authorization"
                  else Some ("Bearer " +:+ t)
      | None => headers c !! "Authorization"
      end /\
    (forall h, h <> "Authorization" -> headers c' !! h = headers c !! h) /\
    method c' = method c /\ url c' = url c /\ payload c' = payload c /\
    _retry c' = _retry c /\
    (forall m u body, headers (request m u body) !! "Authorization" = None) /\
    (forall access original,
       headers (retried_request access original) !! "Authorization"
       = Some ("Bearer " +:+ access)).
Proof.
  eexists _, _. split; [reflexivity|].
  cbv zeta. unfold attach_token, present.
  destruct (localStorage w !! "access_token") as [t|];
    [destruct (String.eqb t EmptyString)|]; simpl;
    (split; [try apply lookup_insert_eq; reflexivity|]);
    (split; [intros h Hh; try (apply lookup_insert_ne; congruence); reflexivity|]);
    repeat split; intros; try apply lookup_insert_eq; reflexivity.
Qed.

(** ** Failures that go straight to the caller *)

(** C2: a request that fails with a status other than 401, or that fails
    with 401 while carrying the retry mark, is rejected with the
    normalized error of that failure; the only thing that happened is that
    the request was sent: no refresh call, no second attempt, nothing
    stored or removed. *)
Theorem retried_or_other_status_propagates (net : Network) (depth : nat)
    (c : Config) (w : World) (r : Response) :
  net (sent w ++ [outbound w c])%list (outbound w c) = Some r ->
  validateStatus (status r) = false ->
  status r <> 401 \/ _retry c = true ->
  run net (api (S depth) c) w =
  Settles (Rejected (handleError {| config := outbound w c; response := Some r |}))
          (send (outbound w c) w).
Proof.
  intros Hnet Hbad Hwhy. rewrite run_api_S. cbv zeta. fold (outbound w c).
  rewrite Hnet, on_answer_settles.
  - simpl. unfold settle. rewrite Hbad. reflexivity.
  - unfold is_401, outbound. simpl. rewrite attach_token_retry.
    destruct Hwhy as [Hs|Hr].
    + apply Z.eqb_neq in Hs. rewrite Hs. reflexivity.
    + rewrite Hr. apply andb_false_r.
Qed.

Lemma retried_or_other_status_propagates_witness :
  run (always unauthorized) (api 1 (mark_retry (get "/llm/models/"))) session =
  Settles (Rejected (handleError
                       {| config := outbound session (mark_retry (get "/llm/models/"));
                          response := Some unauthorized |}))
          (send (outbound session (mark_retry (get "/llm/models/"))) session).
Proof.
  apply (retried_or_other_status_propagates (always unauthorized) 0
           (mark_retry (get "/llm/models/")) session unauthorized).
  - reflexivity.
  - reflexivity.
  - right. reflexivity.
Defined.

(** C10: a 401 that arrives while [localStorage] holds no refresh token is
    rejected with its normalized error; the world after it is the world
    before it with the request sent: no refresh call, no logout, the
    stored access token still there. *)
Theorem unauthorized_without_refresh_token (net : Network) (depth : nat)
    (c : Config) (w : World) (r : Response) :
  net (sent w ++ [outbound w c])%list (outbound w c) = Some r ->
  status r = 401 ->
  present (localStorage w !! "refresh_token") = false ->
  run net (api (S depth) c) w =
    Settles (Rejected (handleError {| config := outbound w c; response := Some r |}))
            (send (outbound w c) w) /\
  localStorage (send (outbound w c) w) = localStorage w /\
  href (send (outbound w c) w) = href w /\
  parked (send (outbound w c) w) = parked w /\
  sent (send (outbound w c) w) = (sent w ++ [outbound w c])%list.
Proof.
  intros Hnet Hs Hnone. split; [|repeat split].
  rewrite run_api_S. cbv zeta. fold (outbound w c). rewrite Hnet.
  unfold on_answer. rewrite Hs. simpl.
  unfold on_rejected, is_401. simpl. rewrite Hs. simpl.
  destruct (_retry (outbound w c)); simpl; [reflexivity|].
  rewrite Hnone. reflexivity.
Qed.

Lemma unauthorized_without_refresh_token_witness :
  run (always unauthorized) (api 1 (get "/auth/profile/")) half_session =
    Settles (Rejected (handleError {| config := outbound half_session (get "/auth/profile/");
                                      response := Some unauthorized |}))
            (send (outbound half_session (get "/auth/profile/")) half_session) /\
  localStorage (send (outbound half_session (get "/auth/profile/")) half_session)
    = localStorage half_session /\
  href (send (outbound half_session (get "/auth/profile/")) half_session) = href half_session /\
  parked (send (outbound half_session (get "/auth/profile/")) half_session)
    = parked half_session /\
  sent (send (outbound half_session (get "/auth/profile/")) half_session)
    = (sent half_session ++ [outbound half_session (get "/auth/profile/")])%list.
Proof.
  apply (unauthorized_without_refresh_token (always unauthorized) 0
           (get "/auth/profile/") half_session unauthorized).
  - reflexivity.
  - reflexivity.
  - vm_compute. reflexivity.
Defined.

(** ** [handleError] *)

(** C6, as stated, fails on a failed response with an empty body: the
    error carries no details and the generic message, where the claim has
    the body as message and as details. *)
Lemma handleError_empty_body_counterexample :
  let e := {| config := get "/llm/models/"; response := Some server_error |} in
  handleError e <> spec_HttpError server_error /\
  details (handleError e) = None /\
  message (handleError e) = generic_message.
Proof. cbv zeta. split; [discriminate|]. split; reflexivity. Qed.

(** C6 (amended): the error of a failed response carries the status code.
    When the body is truthy it is carried as details, and the message is
    the body if that is a string, else the first truthy one of its
    [message], [detail] and [error] fields, else the generic message. When
    the body is falsy (empty string, null, false, 0) the message is the
    generic one and there are no details. *)
Theorem handleError_message_order (error : AxiosError) (r : Response) :
  response error = Some r ->
  status r <> 0 ->
  status_code (handleError error) = status r /\
  (js_truthy (data r) = false ->
     message (handleError error) = generic_message /\ details (handleError error) = None) /\
  (js_truthy (data r) = true ->
     details (handleError error) = Some (data r) /\
     (is_string (data r) = true -> message (handleError error) = data r) /\
     (is_string (data r) = false ->
        (forall m, js_get "message" (data r) = Some m -> js_truthy m = true ->
           message (handleError error) = m) /\
        (truthy (js_get "message" (data r)) = false ->
           (forall d, js_get "detail" (data r) = Some d -> js_truthy d = true ->
              message (handleError error) = d) /\
           (truthy (js_get "detail" (data r)) = false ->
              (forall x, js_get "error" (data r) = Some x -> js_truthy x = true ->
                 message (handleError error) = x) /\
              (truthy (js_get "error" (data r)) = false ->
                 message (handleError error) = generic_message))))).
Proof.
  intros Hr Hs. unfold handleError, status_or_500. rewrite Hr.
  apply Z.eqb_neq in Hs. rewrite Hs.
  split; [destruct (js_truthy (data r)); reflexivity|].
  split; intros Ht; rewrite Ht; simpl; [split; reflexivity|].
  split; [reflexivity|]. unfold extract_message.
  split; [intros Hstr; rewrite Hstr; reflexivity|].
  intros Hstr. rewrite Hstr.
  split; [intros m Hm Htm; rewrite Hm; simpl; rewrite Htm; reflexivity|].
  intros Hm. rewrite Hm.
  split; [intros d Hd Htd; rewrite Hd; simpl; rewrite Htd; reflexivity|].
  intros Hd. rewrite Hd.
  split; [intros x Hx Htx; rewrite Hx; simpl; rewrite Htx; reflexivity|].
  intros Hx. rewrite Hx. reflexivity.
Qed.

Lemma handleError_message_order_witness :
  let error := {| config := get "/auth/profile/"; response := Some unauthorized |} in
  status_code (handleError error) = 401 /\
  details (handleError error) = Some (data unauthorized) /\
  message (handleError error) = JStr "Token is invalid or expired".
Proof.
  cbv zeta.
  destruct (handleError_message_order
              {| config := get "/auth/profile/"; response := Some unauthorized |}
              unauthorized eq_refl ltac:(discriminate)) as (Hs & _ & Ht).
  destruct (Ht eq_refl) as (Hd & _ & Hf).
  destruct (Hf eq_refl) as (_ & Hm).
  destruct (Hm eq_refl) as (Hdet & _).
  split; [exact Hs|]. split; [exact Hd|].
  apply Hdet; reflexivity.
Defined.

(** ** The refresh path *)

Lemma present_Some (t : string) : t <> EmptyString -> present (Some t) = true.
Proof.
  intros H. unfold present. destruct (String.eqb_spec t EmptyString); [contradiction|reflexivity].
Qed.

Lemma set_Authorization_twice (v : string) (c : Config) :
  set_Authorization v (set_Authorization v c) = set_Authorization v c.
Proof. unfold set_Authorization. simpl. f_equal. apply insert_insert_eq. Qed.

(** The request interceptor leaves the re-issued request as the handler
    built it, whatever the new token. *)
Lemma outbound_retried (w : World) (access : string) (c : Config) :
  localStorage w !! "access_token" = Some access ->
  outbound w (retried_request access c) = retried_request access c.
Proof.
  intros H. unfold outbound, attach_token. rewrite H.
  destruct (present (Some access)); [|reflexivity].
  apply set_Authorization_twice.
Qed.

Lemma run_retried (net : Network) (depth : nat) (c : Config) (w : World) :
  _retry c = true ->
  outbound w c = c ->
  run net (api (S depth) c) w = Settles (settle c (net (sent w ++ [c])%list c)) (send c w).
Proof.
  intros Hr Hc. rewrite run_api_S. cbv zeta. fold (outbound w c). rewrite Hc.
  rewrite on_answer_settles; [reflexivity|].
  rewrite Hr. apply andb_false_r.
Qed.

(** The run of a request whose 401 is followed by a successful refresh. *)
Lemma refresh_success_run (net : Network) (depth : nat) (c : Config) (w : World)
    (r1 r2 : Response) (rt access : string) :
  _retry c = false ->
  net (sent w ++ [outbound w c])%list (outbound w c) = Some r1 ->
  status r1 = 401 ->
  localStorage w !! "refresh_token" = Some rt ->
  rt <> EmptyString ->
  net (sent w ++ [outbound w c; refresh_request w rt])%list (refresh_request w rt) = Some r2 ->
  validateStatus (status r2) = true ->
  response_access r2 = Some access ->
  run net (api (S (S depth)) c) w =
  Settles (settle (retried_request access (outbound w c))
             (net (sent (after_refresh w c rt access)
                   ++ [retried_request access (outbound w c)])%list
                  (retried_request access (outbound w c))))
          (send (retried_request access (outbound w c)) (after_refresh w c rt access)).
Proof.
  intros Hretry Hnet1 Hs1 Hrt Hne Hnet2 Hs2 Hacc.
  rewrite run_api_S. cbv zeta. fold (outbound w c). rewrite Hnet1.
  enter_handler Hs1 Hretry.
  cbn [run send localStorage]. rewrite Hrt, (present_Some rt Hne).
  cbn [default id].
  rewrite run_mbind. unfold refreshToken. rewrite run_api_S. cbv zeta.
  change (attach_token (localStorage (send (outbound w c) w) !! "access_token")
            (post "/auth/token/refresh/" (refresh_body rt)))
    with (refresh_request w rt).
  change (sent (send (outbound w c) w)) with (sent w ++ [outbound w c])%list.
  rewrite <- app_assoc. cbn [app]. rewrite Hnet2.
  unfold on_answer. rewrite Hs2. cbn [run]. rewrite Hacc. cbn [run].
  change (perform (SetItem "access_token" access)
            (send (refresh_request w rt) (send (outbound w c) w)))
    with (after_refresh w c rt access).
  change (set_Authorization (bearer access) (mark_retry (outbound w c)))
    with (retried_request access (outbound w c)).
  apply run_retried; [reflexivity|].
  apply outbound_retried. unfold after_refresh. simpl. apply lookup_insert_eq.
Qed.

(** C1: a request that is not marked retried and fails with 401, while a
    refresh token is stored and the refresh call succeeds, ends as
    follows: the new access token is stored, the original request has
    been re-issued once, after the refresh call, with the new token, and
    the caller gets what that re-issued request settles to; when it
    succeeds the caller gets its response. *)
Theorem refresh_then_retry_once (net : Network) (depth : nat) (c : Config) (w : World)
    (r1 r2 : Response) (rt access : string) :
  _retry c = false ->
  net (sent w ++ [outbound w c])%list (outbound w c) = Some r1 ->
  status r1 = 401 ->
  localStorage w !! "refresh_token" = Some rt ->
  rt <> EmptyString ->
  net (sent w ++ [outbound w c; refresh_request w rt])%list (refresh_request w rt) = Some r2 ->
  validateStatus (status r2) = true ->
  response_access r2 = Some access ->
  let c3 := retried_request access (outbound w c) in
  let w3 := after_refresh w c rt access in
  run net (api (S (S depth)) c) w
    = Settles (settle c3 (net (sent w3 ++ [c3])%list c3)) (send c3 w3) /\
  localStorage (send c3 w3) !! "access_token" = Some access /\
  headers c3 !! "Authorization" = Some (bearer access) /\
  sent (send c3 w3) = (sent w ++ [outbound w c; refresh_request w rt; c3])%list /\
  (forall r3, net (sent w3 ++ [c3])%list c3 = Some r3 ->
     validateStatus (status r3) = true ->
     run net (api (S (S depth)) c) w = Settles (Resolved r3) (send c3 w3)).
Proof.
  intros Hretry Hnet1 Hs1 Hrt Hne Hnet2 Hs2 Hacc c3 w3.
  pose proof (refresh_success_run net depth c w r1 r2 rt access
                Hretry Hnet1 Hs1 Hrt Hne Hnet2 Hs2 Hacc) as Hrun.
  fold c3 w3 in Hrun.
  split; [exact Hrun|].
  split; [apply lookup_insert_eq|].
  split; [apply lookup_insert_eq|].
  split.
  - subst w3. unfold after_refresh. simpl. rewrite <- !app_assoc. reflexivity.
  - intros r3 Hnet3 Hs3. rewrite Hrun, Hnet3. unfold settle. rewrite Hs3. reflexivity.
Qed.

Lemma refresh_then_retry_once_witness :
  let c := get "/llm/conversations/" in
  let c3 := retried_request "fresh" (outbound session c) in
  let w3 := after_refresh session c "keep" "fresh" in
  run expired_access (api 2 c) session
    = Settles (settle c3 (expired_access (sent w3 ++ [c3])%list c3)) (send c3 w3) /\
  localStorage (send c3 w3) !! "access_token" = Some "fresh" /\
  headers c3 !! "Authorization" = Some (bearer "fresh") /\
  sent (send c3 w3) = (sent session ++ [outbound session c; refresh_request session "keep"; c3])%list /\
  (forall r3, expired_access (sent w3 ++ [c3])%list c3 = Some r3 ->
     validateStatus (status r3) = true ->
     run expired_access (api 2 c) session = Settles (Resolved r3) (send c3 w3)).
Proof.
  apply (refresh_then_retry_once expired_access 0 (get "/llm/conversations/") session
           unauthorized ok "keep" "fresh").
  - reflexivity.
  - reflexivity.
  - reflexivity.
  - reflexivity.
  - discriminate.
  - reflexivity.
  - reflexivity.
  - reflexivity.
Defined.

(** C7: on the path of a successful refresh the only change to
    [localStorage] is the new value of [access_token]; the refresh token
    is the one that was stored before. *)
Theorem refresh_replaces_access_token_only (net : Network) (depth : nat) (c : Config)
    (w : World) (r1 r2 : Response) (rt access : string) :
  _retry c = false ->
  net (sent w ++ [outbound w c])%list (outbound w c) = Some r1 ->
  status r1 = 401 ->
  localStorage w !! "refresh_token" = Some rt ->
  rt <> EmptyString ->
  net (sent w ++ [outbound w c; refresh_request w rt])%list (refresh_request w rt) = Some r2 ->
  validateStatus (status r2) = true ->
  response_access r2 = Some access ->
  localStorage (final (run net (api (S (S depth)) c) w))
    = <["access_token" := access]> (localStorage w) /\
  localStorage (final (run net (api (S (S depth)) c) w)) !! "refresh_token" = Some rt /\
  (forall key, key <> "access_token" ->
     localStorage (final (run net (api (S (S depth)) c) w)) !! key = localStorage w !! key).
Proof.
  intros Hretry Hnet1 Hs1 Hrt Hne Hnet2 Hs2 Hacc.
  rewrite (refresh_success_run net depth c w r1 r2 rt access
             Hretry Hnet1 Hs1 Hrt Hne Hnet2 Hs2 Hacc).
  simpl. split; [reflexivity|]. split.
  - rewrite lookup_insert_ne; [exact Hrt|discriminate].
  - intros key Hkey. apply lookup_insert_ne. congruence.
Qed.

Lemma refresh_replaces_access_token_only_witness :
  localStorage (final (run expired_access (api 2 (get "/llm/models/")) session))
    = <["access_token" := "fresh"]> (localStorage session) /\
  localStorage (final (run expired_access (api 2 (get "/llm/models/")) session))
    !! "refresh_token" = Some "keep" /\
  (forall key, key <> "access_token" ->
     localStorage (final (run expired_access (api 2 (get "/llm/models/")) session)) !! key
     = localStorage session !! key).
Proof.
  apply (refresh_replaces_access_token_only expired_access 0 (get "/llm/models/") session
           unauthorized ok "keep" "fresh").
  - reflexivity.
  - reflexivity.
  - reflexivity.
  - reflexivity.
  - discriminate.
  - reflexivity.
  - reflexivity.
  - reflexivity.
Defined.

(** ** A refresh endpoint that answers 401 *)

Lemma sending_nil (w : World) : sending [] w = w.
Proof. destruct w. unfold sending. simpl. rewrite app_nil_r. reflexivity. Qed.

Lemma sending_send (c : Config) (l : list Config) (w : World) :
  sending l (send c w) = sending (c :: l) w.
Proof. unfold sending, send. simpl. rewrite <- app_assoc. reflexivity. Qed.

(** The refresh call is a request like any other: it goes through the
    same response interceptor, carries no retry mark, and its 401 starts
    a refresh of its own. Against a server that answers 401 to every
    request the nesting never ends: whatever depth is allowed, it is used
    up, with nothing but requests sent. *)
Lemma unauthorized_forever (net : Network) (depth : nat) (c : Config) (w : World)
    (rt : string) :
  (forall history q, exists r, net history q = Some r /\ status r = 401) ->
  _retry c = false ->
  localStorage w !! "refresh_token" = Some rt ->
  rt <> EmptyString ->
  run net (api depth c) w = Halts FuelExhausted (sending (refresh_storm w c rt depth) w).
Proof.
  intros Hnet. revert c w. induction depth as [|d IH]; intros c w Hretry Hrt Hne.
  - simpl. rewrite sending_nil. reflexivity.
  - rewrite run_api_S. cbv zeta. fold (outbound w c).
    destruct (Hnet (sent w ++ [outbound w c])%list (outbound w c)) as (r & Hr & Hs).
    rewrite Hr. enter_handler Hs Hretry.
    cbn [run send localStorage]. rewrite Hrt, (present_Some rt Hne). cbn [default id].
    rewrite run_mbind. unfold refreshToken.
    rewrite (IH (post "/auth/token/refresh/" (refresh_body rt)) (send (outbound w c) w)
               eq_refl Hrt Hne).
    rewrite sending_send. f_equal. f_equal.
    unfold refresh_storm. f_equal. destruct d; reflexivity.
Qed.

Lemma refresh_calls_sending (w : World) (l : list Config) :
  refresh_calls (sending l w) = (refresh_calls w + length (List.filter is_refresh l))%nat.
Proof. unfold refresh_calls, sending. simpl. rewrite List.filter_app, length_app. reflexivity. Qed.

Lemma filter_replicate_true {A : Type} (f : A -> bool) (x : A) (n : nat) :
  f x = true -> List.filter f (replicate n x) = replicate n x.
Proof. intros H. induction n as [|n IH]; simpl; [reflexivity|]. rewrite H, IH. reflexivity. Qed.

(** C4: at a server that answers 401 to the request and to the refresh
    call, the request never settles: for every depth allowed the run uses
    it up, having sent the request and then one refresh call after the
    other; both tokens are still stored, the page has not been redirected,
    no logout has been started and the caller has been told nothing. *)
Theorem refresh_answered_401_never_settles (depth : nat) :
  let c := get "/llm/conversations/" in
  let stuck := sending (refresh_storm session c "keep" depth) session in
  run (always unauthorized) (api depth c) session = Halts FuelExhausted stuck /\
  localStorage stuck = localStorage session /\
  href stuck = href session /\
  parked stuck = [] /\
  refresh_calls stuck = Nat.pred depth.
Proof.
  cbv zeta. split; [|split; [reflexivity|split; [reflexivity|split; [reflexivity|]]]].
  - apply unauthorized_forever.
    + intros history q. exists unauthorized. split; reflexivity.
    + reflexivity.
    + reflexivity.
    + discriminate.
  - rewrite refresh_calls_sending. destruct depth as [|d]; [reflexivity|].
    unfold refresh_storm. cbn [List.filter]. 
    change (is_refresh (outbound session (get "/llm/conversations/"))) with false.
    cbv iota. rewrite filter_replicate_true by reflexivity.
    rewrite length_replicate. reflexivity.
Qed.

(** ** [logout] *)

Lemma logout_unauthorized_forever (net : Network) (depth : nat) (w : World) (rt : string) :
  (forall history q, exists r, net history q = Some r /\ status r = 401) ->
  localStorage w !! "refresh_token" = Some rt ->
  rt <> EmptyString ->
  run net (logoutMutation depth) w =
  Halts FuelExhausted
    (sending (refresh_storm w (post "/auth/logout/" (refresh_body rt)) rt depth) w).
Proof.
  intros Hnet Hrt Hne. unfold logoutMutation, useMutation.
  rewrite run_mbind. unfold logout. cbn [run].
  rewrite Hrt, (present_Some rt Hne). cbn [default id].
  rewrite !run_mbind.
  rewrite (unauthorized_forever net depth (post "/auth/logout/" (refresh_body rt)) w rt
             Hnet eq_refl Hrt Hne).
  reflexivity.
Qed.

(** C8: at a server that answers 401 to [POST /auth/logout/] and to the
    refresh call, a logout with a refresh token stored never gets to the
    teardown: for every depth allowed the run uses it up inside the
    [await] of the POST, with both tokens still stored, the cache as it
    was and the user still set. *)
Theorem logout_answered_401_never_tears_down (depth : nat) :
  let stuck :=
    sending (refresh_storm session (post "/auth/logout/" (refresh_body "keep")) "keep" depth)
            session in
  run (always unauthorized) (logoutMutation depth) session = Halts FuelExhausted stuck /\
  localStorage stuck !! "access_token" = Some "stale" /\
  localStorage stuck !! "refresh_token" = Some "keep" /\
  queries stuck = queries session /\
  user stuck = user session.
Proof.
  cbv zeta. split; [|repeat split].
  apply logout_unauthorized_forever.
  - intros history q. exists unauthorized. split; reflexivity.
  - reflexivity.
  - discriminate.
Qed.

(** When the [await] of the POST settles, to a response or to an error,
    the teardown follows. *)
Lemma logout_tears_down_once_post_settles (net : Network) (depth : nat) (w w1 : World)
    (rt : string) (outcome : Settled Response) :
  localStorage w !! "refresh_token" = Some rt ->
  rt <> EmptyString ->
  run net (api depth (post "/auth/logout/" (refresh_body rt))) w = Settles outcome w1 ->
  exists w2, run net (logoutMutation depth) w = Settles (Resolved tt) w2 /\ torn_down w2.
Proof.
  intros Hrt Hne Hpost. unfold logoutMutation, useMutation.
  rewrite run_mbind. unfold logout. cbn [run].
  rewrite Hrt, (present_Some rt Hne). cbn [default id].
  rewrite !run_mbind, Hpost.
  destruct outcome as [resp|e]; cbn [run foldr]; eexists; (split; [reflexivity|]);
    unfold torn_down; repeat split; tokens_removed.
Qed.

(** Without a stored refresh token there is no POST, and the teardown
    follows at once. *)
Lemma logout_tears_down_without_token (net : Network) (depth : nat) (w : World) :
  present (localStorage w !! "refresh_token") = false ->
  exists w2, run net (logoutMutation depth) w = Settles (Resolved tt) w2 /\ torn_down w2.
Proof.
  intros Hnone. unfold logoutMutation, useMutation.
  rewrite run_mbind. unfold logout. cbn [run]. rewrite Hnone.
  rewrite run_mbind. cbn [run foldr]. eexists. split; [reflexivity|].
  unfold torn_down. repeat split; tokens_removed.
Qed.

(** ** A refresh call that fails with another status *)

Lemma advance_mbind {A B : Type} (p : Prog A) (f : A -> Prog B) (w : World) :
  advance (p ≫= f) w =
  match advance p w with
  | (w', Finished a) => advance (f a) w'
  | (w', Suspended cfg k) => (w', Suspended cfg (fun answer => bind (k answer) f))
  | (w', Halted why) => (w', Halted why)
  end.
Proof. apply advance_bind. Qed.

(** When the refresh call is rejected (its answer is neither a success
    nor a 401), the caller gets the normalized error of the original 401,
    the page is sent to [/login], and a logout has been started that
    waits for the answer to its POST; whatever that answer is, short of
    another 401, both tokens are removed when it arrives. *)
Lemma refresh_failure_logs_out (net : Network) (depth : nat) (c : Config) (w : World)
    (r1 : Response) (rt : string) (answer2 : option Response) :
  _retry c = false ->
  net (sent w ++ [outbound w c])%list (outbound w c) = Some r1 ->
  status r1 = 401 ->
  localStorage w !! "refresh_token" = Some rt ->
  rt <> EmptyString ->
  net (sent w ++ [outbound w c; refresh_request w rt])%list (refresh_request w rt) = answer2 ->
  is_401 {| config := refresh_request w rt; response := answer2 |} = false ->
  (forall r2, answer2 = Some r2 -> validateStatus (status r2) = false) ->
  let lp := outbound w (post "/auth/logout/" (refresh_body rt)) in
  exists t,
    run net (api (S (S depth)) c) w =
      Settles (Rejected (handleError {| config := outbound w c; response := Some r1 |}))
              (perform (SetHref "/login")
                 (park t (sending [outbound w c; refresh_request w rt; lp] w))) /\
    awaiting t = lp /\
    (forall answer w0,
       is_401 {| config := lp; response := answer |} = false ->
       exists w1, advance (resume t answer) w0 = (w1, Finished tt) /\
                  localStorage w1 !! "access_token" = None /\
                  localStorage w1 !! "refresh_token" = None).
Proof.
  intros Hretry Hnet1 Hs1 Hrt Hne Hnet2 Hnot401 Hfail lp.
  eexists. split; [|split].
  - rewrite run_api_S. cbv zeta. fold (outbound w c). rewrite Hnet1.
    enter_handler Hs1 Hretry.
    cbn [run send localStorage]. rewrite Hrt, (present_Some rt Hne). cbn [default id].
    rewrite run_mbind. unfold refreshToken. rewrite run_api_S. cbv zeta.
    change (attach_token (localStorage (send (outbound w c) w) !! "access_token")
              (post "/auth/token/refresh/" (refresh_body rt)))
      with (refresh_request w rt).
    change (sent (send (outbound w c) w)) with (sent w ++ [outbound w c])%list.
    rewrite <- app_assoc. cbn [app]. rewrite Hnet2.
    rewrite on_answer_settles
      by (rewrite Hnot401; reflexivity).
    cbn [run]. unfold settle.
    assert (Hrej : exists e, match answer2 with
                             | Some r =>
                                 if validateStatus (status r) then Resolved r
                                 else Rejected (handleError
                                        {| config := refresh_request w rt; response := Some r |})
                             | None => Rejected (handleError
                                        {| config := refresh_request w rt; response := None |})
                             end = Rejected e).
    { destruct answer2 as [r2|]; [rewrite (Hfail r2 eq_refl)|]; eexists; reflexivity. }
    destruct Hrej as [e He]. rewrite He.
    cbn [run]. rewrite advance_mbind. unfold logout. cbn [advance send localStorage].
    rewrite Hrt, (present_Some rt Hne). cbn [default id].
    rewrite !advance_mbind. cbn [api advance send localStorage].
    cbn [run perform]. unfold sending, park, send. cbn.
    rewrite <- !app_assoc. reflexivity.
  - reflexivity.
  - intros answer w0 H401. cbn [resume].
    rewrite on_answer_settles
      by (unfold is_401 in *; cbn [response] in *; rewrite H401; reflexivity).
    cbn [bind]. destruct (settle _ answer); cbn; eexists; (split; [reflexivity|]);
      split; tokens_removed.
Qed.

(** On a server whose refresh endpoint answers 500: the caller gets the
    error of the original 401, the page is at [/login], one logout waits
    for its answer and the tokens are still stored until it arrives. *)
Example broken_refresh_run :
  let o := run broken_refresh (api 2 (get "/llm/conversations/")) session in
  o = Settles (Rejected {| message := JStr "Token is invalid or expired";
                           status_code := 401;
                           details := Some (data unauthorized) |})
              (final o) /\
  href (final o) = "/login" /\
  map url (sent (final o)) = ["/llm/conversations/"; "/auth/token/refresh/"; "/auth/logout/"] /\
  map (fun t => url (awaiting t)) (parked (final o)) = ["/auth/logout/"] /\
  localStorage (final o) = localStorage session.
Proof. cbv zeta. repeat split; vm_compute; reflexivity. Qed.

(** ** Mutations and the cache *)

Lemma run_actions {A : Type} (net : Network) (l : list Action) (a : A) (w : World) :
  run net (foldr Act (Done a) l) w = Settles a (foldl (fun w x => perform x w) w l).
Proof. revert w. induction l as [|x l IH]; intros w; simpl; [reflexivity|apply IH]. Qed.

Lemma useMutation_run {A : Type} (net : Network) (fn : Prog (Settled A))
    (onSuccess : A -> list Action) (onError : ApiError -> list Action) (w : World) :
  run net (useMutation fn onSuccess onError) w =
  match run net fn w with
  | Settles r w1 =>
      Settles r (foldl (fun w x => perform x w) w1
                   match r with
                   | Resolved a => onSuccess a
                   | Rejected e => onError e
                   end)
  | Halts why w1 => Halts why w1
  end.
Proof.
  unfold useMutation. rewrite run_mbind.
  destruct (run net fn w) as [r w1|why w1]; [apply run_actions|reflexivity].
Qed.

Lemma key_matches_refl (key : QueryKey) : key_matches key key = true.
Proof.
  induction key as [|p key IH]; simpl; [reflexivity|].
  rewrite bool_decide_eq_true_2 by reflexivity. exact IH.
Qed.

Lemma invalidate_queryKey (filter : QueryKey) (q : Query) :
  queryKey (invalidate filter q) = queryKey q.
Proof. unfold invalidate. destruct (key_matches filter (queryKey q)); reflexivity. Qed.

Lemma invalidate_isInvalidated (filter : QueryKey) (q : Query) :
  isInvalidated (invalidate filter q) = key_matches filter (queryKey q) || isInvalidated q.
Proof. unfold invalidate. destruct (key_matches filter (queryKey q)); reflexivity. Qed.

(** Invalidation leaves alone what its filter does not match. *)
Lemma refetches_invalidate_other (filter key : QueryKey) (qs : list Query) :
  key_matches filter key = false ->
  refetches key (invalidateQueries filter qs) = refetches key qs.
Proof.
  intros Hno. unfold refetches, invalidateQueries.
  induction qs as [|q qs IH]; simpl; [reflexivity|].
  rewrite invalidate_queryKey.
  destruct (bool_decide_reflect (queryKey q = key)) as [Heq|Hneq]; [|exact IH].
  rewrite invalidate_isInvalidated, Heq, Hno. reflexivity.
Qed.

(** After the invalidation of a key the next read of it goes to the
    network. *)
Lemma refetches_invalidate_self (key : QueryKey) (qs : list Query) :
  refetches key (invalidateQueries key qs) = true.
Proof.
  unfold refetches, invalidateQueries.
  induction qs as [|q qs IH]; simpl; [reflexivity|].
  rewrite invalidate_queryKey.
  destruct (bool_decide_reflect (queryKey q = key)) as [Heq|Hneq]; [|exact IH].
  rewrite invalidate_isInvalidated, Heq, key_matches_refl. reflexivity.
Qed.

(** C5, as stated, fails: after a message has been sent in conversation 7
    and after conversation 7 has been archived, both with success, the
    cached [conversation:7] is still fresh, and the next read of it does
    not go to the network. *)
Lemma conversation_key_stays_fresh_counterexample :
  refetches (conversation_key 7)
    (queries (final (run (always ok) (sendMessageMutation 1 hello) session))) = false /\
  refetches (conversation_key 7)
    (queries (final (run (always ok) (archiveConversationMutation 1 7) session))) = false.
Proof. split; vm_compute; reflexivity. Qed.

(** C5 (amended): each mutation of [useLLM] that names a cache key
    invalidates the queries under that one key, in the cache as its
    service call left it and only when that call resolved: the
    [conversations] key for creating, updating, deleting, archiving,
    unarchiving a conversation and for sending a message, the
    [preferences] key for updating the preferences. Invalidating
    [conversations] makes the next read of [conversations] go to the
    network and changes nothing for any [conversation:<id>]. *)
Theorem mutations_invalidate_named_key_only (net : Network) (depth : nat) (w : World) :
  (forall body,
     queries (final (run net (sendMessageMutation depth body) w))
     = after_mutation net (sendMessage depth body) w (invalidateQueries conversations_key)) /\
  (forall id,
     queries (final (run net (archiveConversationMutation depth id) w))
     = after_mutation net (archiveConversation depth id) w
         (invalidateQueries conversations_key)) /\
  (forall id,
     queries (final (run net (unarchiveConversationMutation depth id) w))
     = after_mutation net (unarchiveConversation depth id) w
         (invalidateQueries conversations_key)) /\
  (forall body,
     queries (final (run net (createConversationMutation depth body) w))
     = after_mutation net (createConversation depth body) w
         (invalidateQueries conversations_key)) /\
  (forall id body,
     queries (final (run net (updateConversationMutation depth id body) w))
     = after_mutation net (updateConversation depth id body) w
         (invalidateQueries conversations_key)) /\
  (forall id,
     queries (final (run net (deleteConversationMutation depth id) w))
     = after_mutation net (deleteConversation depth id) w
         (invalidateQueries conversations_key)) /\
  (forall body,
     queries (final (run net (updatePreferencesMutation depth body) w))
     = after_mutation net (updateUserPreferences depth body) w
         (invalidateQueries [KStr "preferences"])) /\
  (forall qs, refetches conversations_key (invalidateQueries conversations_key qs) = true) /\
  (forall qs id,
     refetches (conversation_key id) (invalidateQueries conversations_key qs)
     = refetches (conversation_key id) qs).
Proof.
  repeat split; intros;
    try (unfold sendMessageMutation, archiveConversationMutation,
           unarchiveConversationMutation, createConversationMutation,
           updateConversationMutation, deleteConversationMutation,
           updatePreferencesMutation, after_mutation;
         rewrite useMutation_run;
         match goal with
         | |- context [run net ?fn w] => destruct (run net fn w) as [[v|e] w1|why w1]
         end; reflexivity).
  - apply refetches_invalidate_self.
  - apply refetches_invalidate_other. reflexivity.
Qed.

(** ** Several requests that fail with 401 *)

Lemma start_all_spec (depth : nat) (cfgs : list Config) (w : World) :
  start_all (S depth) cfgs w =
  (sending (map (outbound w) cfgs) w, map (first_wait depth w) cfgs).
Proof.
  revert w. induction cfgs as [|c cfgs IH]; intros w.
  - simpl. rewrite sending_nil. reflexivity.
  - cbn [start_all api advance]. rewrite IH.
    change (attach_token (localStorage w !! "access_token") c) with (outbound w c).
    rewrite sending_send. reflexivity.
Qed.

Lemma is_refresh_outbound (w : World) (c : Config) :
  is_refresh (outbound w c) = is_refresh c.
Proof.
  unfold is_refresh, outbound, attach_token.
  destruct (localStorage w !! "access_token") as [t|]; [|reflexivity].
  destruct (present (Some t)); reflexivity.
Qed.

(** A 401 delivered to a request that waits for its first answer makes
    it send a refresh call of its own and wait for that. *)
Lemma deliver_unauthorized (depth : nat) (w w' : World) (c : Config) (r : Response)
    (rt : string) :
  _retry c = false ->
  status r = 401 ->
  localStorage w' !! "refresh_token" = Some rt ->
  rt <> EmptyString ->
  exists k,
    deliver (first_wait (S depth) w c) (Some r) w'
    = (send (refresh_request w' rt) w', Suspended (refresh_request w' rt) k).
Proof.
  intros Hretry Hs Hrt Hne. unfold first_wait, deliver.
  enter_handler Hs Hretry. cbn [advance].
  rewrite Hrt, (present_Some rt Hne). cbn [default id].
  rewrite advance_mbind. unfold refreshToken. cbn [api advance].
  eexists. reflexivity.
Qed.

Lemma refresh_calls_send (c : Config) (w : World) :
  refresh_calls (send c w) = (refresh_calls w + (if is_refresh c then 1 else 0))%nat.
Proof.
  unfold refresh_calls, send. simpl. rewrite List.filter_app, length_app. simpl.
  destruct (is_refresh c); reflexivity.
Qed.

Lemma in_flight_step (depth : nat) (w : World) (cfgs : list Config) (base : nat)
    (answered : list nat) (st : World * list (Status (Settled Response)))
    (i : nat) (r : Response) (rt : string) :
  Forall (fun c => _retry c = false) cfgs ->
  localStorage w !! "refresh_token" = Some rt ->
  rt <> EmptyString ->
  in_flight (S depth) w cfgs base answered st ->
  i ∉ answered ->
  (i < length cfgs)%nat ->
  status r = 401 ->
  in_flight (S depth) w cfgs base (i :: answered) (deliver_at i (Some r) st).
Proof.
  intros Hcfgs Hrt Hne (Hst & Hlen & Hwait & Hdone & Hcount) Hi Hlt Hs.
  destruct st as [w' ss]. simpl in *.
  destruct (lookup_lt_is_Some_2 cfgs i Hlt) as [c Hc].
  pose proof (Hwait i c Hi Hc) as Hss.
  assert (Hretry : _retry c = false).
  { rewrite Forall_forall in Hcfgs. apply Hcfgs. apply list_elem_of_lookup. eauto. }
  assert (Hrt' : localStorage w' !! "refresh_token" = Some rt) by (rewrite Hst; exact Hrt).
  destruct (deliver_unauthorized depth w w' c r rt Hretry Hs Hrt' Hne) as [k Hk].
  unfold deliver_at. simpl. rewrite Hss, Hk.
  unfold in_flight. simpl. repeat split.
  - exact Hst.
  - rewrite length_insert. exact Hlen.
  - intros j cj Hj Hcj. apply not_elem_of_cons in Hj as [Hne' Hj].
    rewrite list_lookup_insert_ne by congruence. apply Hwait; assumption.
  - intros j Hj. destruct (decide (j = i)) as [->|Hji].
    + eexists. split.
      * apply list_lookup_insert_eq. rewrite Hlen. exact Hlt.
      * simpl. unfold refresh_request. rewrite is_refresh_outbound. reflexivity.
    + apply elem_of_cons in Hj as [Hj|Hj]; [contradiction|].
      rewrite list_lookup_insert_ne by congruence. apply Hdone. exact Hj.
  - rewrite refresh_calls_send. unfold refresh_request. rewrite is_refresh_outbound.
    change (is_refresh (post "/auth/token/refresh/" (refresh_body rt))) with true.
    rewrite Hcount. lia.
Qed.

Lemma in_flight_play (depth : nat) (w : World) (cfgs : list Config) (base : nat)
    (rt : string) (events : list (nat * option Response)) :
  Forall (fun c => _retry c = false) cfgs ->
  localStorage w !! "refresh_token" = Some rt ->
  rt <> EmptyString ->
  Forall (fun e => (e.1 < length cfgs)%nat /\ exists r, e.2 = Some r /\ status r = 401) events ->
  forall answered st,
    NoDup (events.*1 ++ answered) ->
    in_flight (S depth) w cfgs base answered st ->
    in_flight (S depth) w cfgs base (rev events.*1 ++ answered) (play events st).
Proof.
  intros Hcfgs Hrt Hne Hev. induction Hev as [|[i a] events (Hlt & r & Ha & Hs) Hev IH];
    intros answered st Hnd Hinv; [exact Hinv|].
  simpl in *. subst a. apply NoDup_cons in Hnd as [Hi Hnd].
  rewrite <- app_assoc. simpl. apply IH.
  - apply NoDup_app in Hnd as (Hnd1 & Hdisj & Hnd2).
    apply NoDup_app. split; [exact Hnd1|]. split.
    + intros x Hx. apply not_elem_of_cons. split.
      * intros ->. apply Hi. apply elem_of_app. left. exact Hx.
      * apply Hdisj. exact Hx.
    + apply NoDup_cons. split; [|exact Hnd2].
      intros Hin. apply Hi. apply elem_of_app. right. exact Hin.
  - apply (in_flight_step depth w cfgs base answered st i r rt); try assumption.
    intros Hin. apply Hi. apply elem_of_app. right. exact Hin.
Qed.

(** C3, as stated, fails: two requests in flight that both get a 401 send
    two refresh calls, not one; and when the first refresh call succeeds
    and the second fails, the first request is retried and resolves while
    the second is rejected. *)
Lemma two_requests_two_refreshes_counterexample :
  let requests := [get "/llm/conversations/"; get "/llm/models/"] in
  let unauthorized_both :=
    play [(0%nat, Some unauthorized); (1%nat, Some unauthorized)]
         (start_all 2 requests session) in
  let settled :=
    play [(0%nat, Some ok); (1%nat, Some server_error); (0%nat, Some ok)]
         unauthorized_both in
  refresh_calls unauthorized_both.1 = 2%nat /\
  refresh_calls unauthorized_both.1 <> 1%nat /\
  match settled.2 with
  | [Finished (Resolved _); Finished (Rejected _)] => True
  | _ => False
  end.
Proof. cbv zeta. split; [|split]; vm_compute; [reflexivity|discriminate|exact I]. Qed.

(** C3 (amended): of the requests in flight, every one that gets a 401
    while a refresh token is stored sends a refresh call of its own and
    waits for the answer to that call: after the 401s have arrived, in
    whatever order, the refresh calls sent number one per request
    answered, and nothing has been stored or removed. *)
Theorem each_unauthorized_request_refreshes (depth : nat) (cfgs : list Config) (w : World)
    (rt : string) (events : list (nat * option Response)) :
  Forall (fun c => _retry c = false) cfgs ->
  localStorage w !! "refresh_token" = Some rt ->
  rt <> EmptyString ->
  NoDup events.*1 ->
  Forall (fun e => (e.1 < length cfgs)%nat /\ exists r, e.2 = Some r /\ status r = 401) events ->
  let started := start_all (S (S depth)) cfgs w in
  let st := play events started in
  refresh_calls st.1 = (refresh_calls started.1 + length events)%nat /\
  Forall (fun e => exists s, st.2 !! e.1 = Some s /\ awaits_refresh s) events /\
  localStorage st.1 = localStorage w.
Proof.
  intros Hcfgs Hrt Hne Hnd Hev started st.
  assert (Hinv : in_flight (S depth) w cfgs (refresh_calls started.1)
                   (rev events.*1 ++ []) st).
  { subst st. apply (in_flight_play depth w cfgs _ rt events Hcfgs Hrt Hne Hev).
    - rewrite app_nil_r. exact Hnd.
    - subst started. rewrite start_all_spec. unfold in_flight. simpl. repeat split.
      + apply length_map.
      + intros i c _ Hc. change (map (first_wait (S depth) w) cfgs)
          with (first_wait (S depth) w <$> cfgs).
        rewrite list_lookup_fmap, Hc. reflexivity.
      + intros i Hi. apply elem_of_nil in Hi. contradiction.
      + lia. }
  destruct Hinv as (Hst & _ & _ & Hdone & Hcount).
  rewrite app_nil_r in Hdone, Hcount.
  split; [|split].
  - rewrite Hcount, length_rev, length_fmap. reflexivity.
  - apply Forall_forall. intros e He. apply Hdone.
    apply list_elem_of_In. apply -> List.in_rev. apply list_elem_of_In.
    apply list_elem_of_fmap. exists e. split; [reflexivity|exact He].
  - exact Hst.
Qed.

Lemma each_unauthorized_request_refreshes_witness :
  let cfgs := [get "/llm/conversations/"; get "/llm/models/"; get "/llm/preferences/"] in
  let events := [(2%nat, Some unauthorized); (0%nat, Some unauthorized);
                 (1%nat, Some unauthorized)] in
  let started := start_all 2 cfgs session in
  let st := play events started in
  refresh_calls st.1 = (refresh_calls started.1 + length events)%nat /\
  Forall (fun e => exists s, st.2 !! e.1 = Some s /\ awaits_refresh s) events /\
  localStorage st.1 = localStorage session.
Proof.
  apply (each_unauthorized_request_refreshes 0
           [get "/llm/conversations/"; get "/llm/models/"; get "/llm/preferences/"]
           session "keep"
           [(2%nat, Some unauthorized); (0%nat, Some unauthorized);
            (1%nat, Some unauthorized)]).
  - repeat constructor.
  - reflexivity.
  - discriminate.
  - apply (bool_decide_unpack _). vm_compute. exact I.
  - repeat (constructor; [split; [simpl; lia|exists unauthorized; split; reflexivity]|]).
    constructor.
Defined.

(** ** Answers that need no refresh *)

Lemma api_resolves (net : Network) (depth : nat) (c : Config) (w : World) (r : Response) :
  net (sent w ++ [outbound w c])%list (outbound w c) = Some r ->
  validateStatus (status r) = true ->
  run net (api (S depth) c) w = Settles (Resolved r) (send (outbound w c) w).
Proof.
  intros Hnet Hok. rewrite run_api_S. cbv zeta. fold (outbound w c).
  rewrite Hnet. unfold on_answer. rewrite Hok. reflexivity.
Qed.

(** X1: a request answered with a 2xx status resolves to that response,
    unchanged; the only thing that happened is that the request was sent:
    no refresh call, nothing stored or removed, whether or not the request
    carries the retry mark. *)
Theorem success_passes_through (net : Network) (depth : nat) (c : Config) (w : World)
    (r : Response) :
  net (sent w ++ [outbound w c])%list (outbound w c) = Some r ->
  validateStatus (status r) = true ->
  run net (api (S depth) c) w = Settles (Resolved r) (send (outbound w c) w).
Proof. apply api_resolves. Qed.

Lemma success_passes_through_witness :
  run expired_access (api 1 (post refresh_url (refresh_body "keep"))) session =
  Settles (Resolved ok) (send (outbound session (post refresh_url (refresh_body "keep"))) session).
Proof.
  apply (success_passes_through expired_access 0 (post refresh_url (refresh_body "keep"))
           session ok).
  - reflexivity.
  - reflexivity.
Defined.

(** X2: when nothing comes back from the network, the caller gets an
    error with status 500, the generic message and no details, and the
    interceptor does not try a refresh, even with both tokens stored and
    no retry mark on the request. *)
Theorem no_response_is_reported_as_500 (net : Network) (depth : nat) (c : Config)
    (w : World) :
  net (sent w ++ [outbound w c])%list (outbound w c) = None ->
  run net (api (S depth) c) w =
  Settles (Rejected {| message := generic_message; status_code := 500; details := None |})
          (send (outbound w c) w).
Proof.
  intros Hnet. rewrite run_api_S. cbv zeta. fold (outbound w c).
  rewrite Hnet. reflexivity.
Qed.

Lemma no_response_is_reported_as_500_witness :
  run offline (api 1 (get "/llm/conversations/")) session =
  Settles (Rejected {| message := generic_message; status_code := 500; details := None |})
          (send (outbound session (get "/llm/conversations/")) session).
Proof.
  apply (no_response_is_reported_as_500 offline 0 (get "/llm/conversations/") session).
  reflexivity.
Defined.

(** ** What every normalized error has *)

Lemma extract_message_truthy (body : JsVal) :
  js_truthy body = true -> js_truthy (extract_message body) = true.
Proof.
  intros Hb. unfold extract_message.
  destruct (is_string body); [exact Hb|].
  destruct (js_get "message" body) as [m|] eqn:Hm; simpl.
  - destruct (js_truthy m) eqn:Htm; [exact Htm|].
    destruct (js_get "detail" body) as [d|]; simpl.
    + destruct (js_truthy d) eqn:Htd; [exact Htd|].
      destruct (js_get "error" body) as [x|]; simpl; [|reflexivity].
      destruct (js_truthy x) eqn:Htx; [exact Htx|reflexivity].
    + destruct (js_get "error" body) as [x|]; simpl; [|reflexivity].
      destruct (js_truthy x) eqn:Htx; [exact Htx|reflexivity].
  - destruct (js_get "detail" body) as [d|]; simpl.
    + destruct (js_truthy d) eqn:Htd; [exact Htd|].
      destruct (js_get "error" body) as [x|]; simpl; [|reflexivity].
      destruct (js_truthy x) eqn:Htx; [exact Htx|reflexivity].
    + destruct (js_get "error" body) as [x|]; simpl; [|reflexivity].
      destruct (js_truthy x) eqn:Htx; [exact Htx|reflexivity].
Qed.

Lemma message_truthy (error : AxiosError) :
  js_truthy (message (handleError error)) = true.
Proof.
  unfold handleError. destruct (response error) as [r|]; [|reflexivity].
  destruct (js_truthy (data r)) eqn:Hb; [|reflexivity].
  simpl. apply extract_message_truthy. exact Hb.
Qed.

(** X3: whatever failed, the normalized error has a truthy message and a
    status code other than 0; so the fallback text a mutation gives to
    [toast.error(error.message || ...)] is never shown for an error that
    comes from [handleError]. *)
Theorem handleError_always_informative (error : AxiosError) :
  js_truthy (message (handleError error)) = true /\
  status_code (handleError error) <> 0 /\
  (forall fallback,
     toast_error (handleError error) fallback = Toast false (message (handleError error))).
Proof.
  pose proof (message_truthy error) as Hm.
  split; [exact Hm|]. split.
  - unfold handleError, status_or_500.
    destruct (response error) as [r|]; [|discriminate].
    destruct (js_truthy (data r)); simpl;
      destruct (Z.eqb_spec (status r) 0); try discriminate; assumption.
  - intros fallback. unfold toast_error. rewrite Hm. reflexivity.
Qed.

(** ** What the HTTP layer leaves alone *)

Lemma session_only_bind {A B : Type} (p : Prog A) (f : A -> Prog B) :
  session_only p -> (forall a, session_only (f a)) -> session_only (bind p f).
Proof.
  intros Hp. revert B f.
  induction Hp as [A a|A key k Hk IH|A a k Ha Hk IH|A cfg k Hk IH|A q k Hq IHq Hk IHk|A why];
    intros B f Hf; simpl.
  - apply Hf.
  - constructor. intros v. apply IH. exact Hf.
  - constructor; [exact Ha|]. apply IH. exact Hf.
  - constructor. intros answer. apply IH. exact Hf.
  - constructor; [exact Hq|]. apply IHk. exact Hf.
  - constructor.
Qed.

Lemma session_only_logout (f : Config -> Prog (Settled Response)) :
  (forall c, session_only (f c)) -> session_only (logout f).
Proof.
  intros Hf. unfold logout. constructor. intros token.
  apply session_only_bind.
  - destruct (present token); [|constructor].
    apply session_only_bind; [apply Hf|].
    intros [resp|e]; repeat constructor.
  - intros _. repeat constructor.
Qed.

Lemma session_only_on_rejected (f : Config -> Prog (Settled Response)) (error : AxiosError) :
  (forall c, session_only (f c)) -> session_only (on_rejected f error).
Proof.
  intros Hf. unfold on_rejected.
  destruct (is_401 error && negb (_retry (config error))); [|constructor].
  constructor. intros token. destruct (present token); [|constructor].
  apply session_only_bind; [apply Hf|].
  intros [resp|e].
  - destruct (response_access resp) as [access|]; [|constructor].
    constructor; [reflexivity|apply Hf].
  - constructor.
    + apply session_only_bind; [apply session_only_logout; exact Hf|].
      intros _. constructor.
    + repeat constructor.
Qed.

Lemma session_only_api (depth : nat) (c : Config) : session_only (api depth c).
Proof.
  revert c. induction depth as [|d IH]; intros c; simpl; [constructor|].
  constructor. intros token. constructor. intros answer.
  unfold on_answer. destruct answer as [r|].
  - destruct (validateStatus (status r)); [constructor|].
    apply session_only_on_rejected. exact IH.
  - apply session_only_on_rejected. exact IH.
Qed.

Lemma untouched_refl (w : World) : untouched w w.
Proof.
  unfold untouched. repeat split; auto. exists []. rewrite app_nil_r. reflexivity.
Qed.

Lemma untouched_trans (w1 w2 w3 : World) :
  untouched w1 w2 -> untouched w2 w3 -> untouched w1 w3.
Proof.
  intros (Hq1 & Hu1 & Hk1 & m1 & Hs1) (Hq2 & Hu2 & Hk2 & m2 & Hs2).
  unfold untouched. repeat split.
  - congruence.
  - congruence.
  - intros key Hkey. rewrite Hk2, Hk1; auto.
  - exists (m1 ++ m2)%list. rewrite Hs2, Hs1, app_assoc. reflexivity.
Qed.

Lemma token_key_differs (key other : string) :
  token_key key = true -> token_key other = false -> key <> other.
Proof. intros Hk Ho ->. rewrite Hk in Ho. discriminate. Qed.

Lemma perform_untouched (a : Action) (w : World) :
  session_action a = true -> untouched w (perform a w).
Proof.
  intros Ha. destruct a as [key value|key|target|label|filter| |ok text|u];
    try discriminate; unfold untouched; simpl; repeat split;
    try (exists []; rewrite app_nil_r; reflexivity);
    intros other Hother.
  - apply lookup_insert_ne. apply (token_key_differs key other); assumption.
  - apply lookup_delete_ne. apply (token_key_differs key other); assumption.
Qed.

Lemma send_untouched (c : Config) (w : World) : untouched w (send c w).
Proof. unfold untouched. simpl. repeat split; auto. exists [c]. reflexivity. Qed.

Lemma park_untouched (t : Parked) (w : World) : untouched w (park t w).
Proof.
  unfold untouched. simpl. repeat split; auto. exists []. rewrite app_nil_r. reflexivity.
Qed.

Lemma perform_parked (a : Action) (w : World) : parked (perform a w) = parked w.
Proof. destruct a; reflexivity. Qed.

(** A [session_only] call, run to its first suspension, leaves alone what
    the HTTP layer leaves alone, and so will it and every call it parked
    when they go on. *)
Lemma advance_untouched {A : Type} (p : Prog A) :
  session_only p ->
  forall w, parked_session_only w ->
    untouched w (advance p w).1 /\
    parked_session_only (advance p w).1 /\
    match (advance p w).2 with
    | Suspended _ k => forall answer, session_only (k answer)
    | _ => True
    end.
Proof.
  intros Hp.
  induction Hp as [A a|A key k Hk IH|A a k Ha Hk IH|A cfg k Hk IH|A q k Hq IHq Hk IHk|A why];
    intros w Hw; simpl.
  - split; [apply untouched_refl|]. split; [exact Hw|exact I].
  - apply IH. exact Hw.
  - destruct (IH (perform a w)) as (Hu & Hpk & Hs).
    { unfold parked_session_only. rewrite perform_parked. exact Hw. }
    split; [|split; assumption].
    eapply untouched_trans; [apply perform_untouched; exact Ha|exact Hu].
  - split; [apply send_untouched|]. split; [exact Hw|exact Hk].
  - destruct (IHq w Hw) as (Hu & Hpk & Hs).
    destruct (advance q w) as [w' [u|cfg r|why]]; simpl in *.
    + destruct (IHk w' Hpk) as (Hu' & Hpk' & Hs').
      split; [eapply untouched_trans; eassumption|]. split; assumption.
    + destruct (IHk (park {| awaiting := cfg; resume := r |} w')) as (Hu' & Hpk' & Hs').
      { unfold parked_session_only. simpl. apply Forall_app. split; [exact Hpk|].
        constructor; [exact Hs|constructor]. }
      split; [|split; assumption].
      eapply untouched_trans; [exact Hu|].
      eapply untouched_trans; [apply park_untouched|exact Hu'].
    + split; [exact Hu|]. split; [exact Hpk|exact I].
  - split; [apply untouched_refl|]. split; [exact Hw|exact I].
Qed.

Lemma run_untouched {A : Type} (net : Network) (p : Prog A) :
  session_only p ->
  forall w, parked_session_only w ->
    untouched w (final (run net p w)) /\ parked_session_only (final (run net p w)).
Proof.
  intros Hp.
  induction Hp as [A a|A key k Hk IH|A a k Ha Hk IH|A cfg k Hk IH|A q k Hq IHq Hk IHk|A why];
    intros w Hw; simpl.
  - split; [apply untouched_refl|exact Hw].
  - apply IH. exact Hw.
  - destruct (IH (perform a w)) as (Hu & Hpk).
    { unfold parked_session_only. rewrite perform_parked. exact Hw. }
    split; [|exact Hpk].
    eapply untouched_trans; [apply perform_untouched; exact Ha|exact Hu].
  - destruct (IH (net (sent w ++ [cfg])%list cfg) (send cfg w) Hw) as (Hu & Hpk).
    split; [|exact Hpk].
    eapply untouched_trans; [apply send_untouched|exact Hu].
  - destruct (advance_untouched q Hq w Hw) as (Hu & Hpk & Hs).
    destruct (advance q w) as [w' [u|cfg r|why]]; simpl in *.
    + destruct (IHk w' Hpk) as (Hu' & Hpk').
      split; [eapply untouched_trans; eassumption|exact Hpk'].
    + destruct (IHk (park {| awaiting := cfg; resume := r |} w')) as (Hu' & Hpk').
      { unfold parked_session_only. simpl. apply Forall_app. split; [exact Hpk|].
        constructor; [exact Hs|constructor]. }
      split; [|exact Hpk'].
      eapply untouched_trans; [exact Hu|].
      eapply untouched_trans; [apply park_untouched|exact Hu'].
    + split; assumption.
  - split; [apply untouched_refl|exact Hw].
Qed.

(** X4: whatever the server answers and however deep the calls nest, a
    call through the axios instance, with the refresh, the retry and the
    logout it may start, leaves the query cache, the user and every key of
    [localStorage] other than the two tokens as they were, and takes
    nothing back from the requests already sent; the same holds for the
    logouts it leaves waiting, when their answers arrive. *)
Theorem api_touches_session_only (net : Network) (depth : nat) (c : Config) (w : World) :
  parked_session_only w ->
  untouched w (final (run net (api depth c) w)) /\
  (forall t answer w2,
     t ∈ parked (final (run net (api depth c) w)) ->
     parked_session_only w2 ->
     untouched w2 (advance (resume t answer) w2).1).
Proof.
  intros Hw.
  destruct (run_untouched net (api depth c) (session_only_api depth c) w Hw) as (Hu & Hpk).
  split; [exact Hu|].
  intros t answer w2 Ht Hw2.
  unfold parked_session_only in Hpk. rewrite Forall_forall in Hpk.
  apply (advance_untouched (resume t answer) (Hpk t Ht answer) w2 Hw2).
Qed.

Lemma api_touches_session_only_witness :
  untouched session (final (run broken_refresh (api 3 (get "/llm/models/")) session)) /\
  (forall t answer w2,
     t ∈ parked (final (run broken_refresh (api 3 (get "/llm/models/")) session)) ->
     parked_session_only w2 ->
     untouched w2 (advance (resume t answer) w2).1).
Proof.
  apply (api_touches_session_only broken_refresh 3 (get "/llm/models/") session).
  constructor.
Defined.

(** ** A refresh endpoint that does not answer 401 *)

Lemma url_outbound (w : World) (c : Config) : url (outbound w c) = url c.
Proof.
  unfold outbound, attach_token.
  destruct (localStorage w !! "access_token") as [t|]; [|reflexivity].
  destruct (present (Some t)); reflexivity.
Qed.

Lemma present_inv (token : option string) :
  present token = true -> exists t, token = Some t /\ t <> EmptyString.
Proof.
  destruct token as [t|]; [|discriminate]. simpl. intros H. exists t. split; [reflexivity|].
  intros ->. discriminate.
Qed.

Lemma outbound_retry (w : World) (c : Config) : _retry (outbound w c) = _retry c.
Proof. apply attach_token_retry. Qed.

Lemma is_refresh_retried (access : string) (c : Config) :
  is_refresh (retried_request access c) = is_refresh c.
Proof. reflexivity. Qed.

(** X5: when the refresh endpoint never answers 401 and its successful
    answers carry an access token, every call through the axios instance
    settles, whatever else the server does. By the time it settles, at
    most three requests have been sent (the request, one refresh call,
    and either the re-issued request or the POST of a logout), at most
    one of them a refresh call, and at most one call is left waiting: a
    logout, on the answer to its [POST /auth/logout/]. What that logout
    sends once its answer arrives is outside this count. *)
Theorem settles_when_refresh_well_behaved (net : Network) (depth : nat) (c : Config)
    (w : World) :
  refresh_well_behaved net ->
  exists r w' waiting,
    run net (api (S (S depth)) c) w = Settles r w' /\
    (length (sent w') <= length (sent w) + 3)%nat /\
    (is_refresh c = false -> (refresh_calls w' <= refresh_calls w + 1)%nat) /\
    parked w' = (parked w ++ waiting)%list /\
    (length waiting <= 1)%nat /\
    Forall (fun t => url (awaiting t) = "/auth/logout/") waiting.
Proof.
  intros Hnet.
  destruct (is_401 {| config := outbound w c;
                      response := net (sent w ++ [outbound w c])%list (outbound w c) |}
            && negb (_retry c)) eqn:Hcase.
  - apply andb_true_iff in Hcase as [H401 Hretry].
    apply negb_true_iff in Hretry.
    unfold is_401 in H401. cbn [response] in H401.
    destruct (net (sent w ++ [outbound w c])%list (outbound w c)) as [r1|] eqn:Hnet1;
      [|discriminate].
    apply Z.eqb_eq in H401.
    destruct (present (localStorage w !! "refresh_token")) eqn:Hpresent.
    + destruct (present_inv _ Hpresent) as (rt & Hrt & Hne).
      pose proof (Hnet (sent w ++ [outbound w c; refresh_request w rt])%list
                    (refresh_request w rt)) as Hwell.
      unfold refresh_request in Hwell at 1. rewrite is_refresh_outbound in Hwell.
      specialize (Hwell eq_refl).
      assert (Hlogout : forall (t : Parked) (r : Settled Response),
                awaiting t = outbound w (post "/auth/logout/" (refresh_body rt)) ->
                run net (api (S (S depth)) c) w =
                  Settles r
                    (perform (SetHref "/login")
                       (park t (sending [outbound w c; refresh_request w rt;
                                         outbound w (post "/auth/logout/" (refresh_body rt))]
                                  w))) ->
                exists r w' waiting,
                  run net (api (S (S depth)) c) w = Settles r w' /\
                  (length (sent w') <= length (sent w) + 3)%nat /\
                  (is_refresh c = false -> (refresh_calls w' <= refresh_calls w + 1)%nat) /\
                  parked w' = (parked w ++ waiting)%list /\
                  (length waiting <= 1)%nat /\
                  Forall (fun t => url (awaiting t) = "/auth/logout/") waiting).
      { intros t r Hawait Hrun. exists r. eexists. exists [t].
        split; [exact Hrun|]. split; [|split; [|split; [|split]]].
        - simpl. rewrite length_app. simpl. lia.
        - intros Hc. unfold refresh_calls. simpl.
          rewrite List.filter_app, length_app. cbn [List.filter].
          unfold refresh_request. rewrite !is_refresh_outbound, Hc. simpl. lia.
        - reflexivity.
        - simpl. lia.
        - constructor; [|constructor]. rewrite Hawait. apply url_outbound. }
      destruct (net (sent w ++ [outbound w c; refresh_request w rt])%list
                  (refresh_request w rt)) as [r2|] eqn:Hnet2.
      * destruct Hwell as [Hnot401 Hacc].
        destruct (validateStatus (status r2)) eqn:Hok.
        -- destruct (Hacc eq_refl) as [access Haccess].
           eexists _, _, []. split; [|split; [|split; [|split; [|split]]]].
           ++ apply (refresh_success_run net depth c w r1 r2 rt access); assumption.
           ++ unfold after_refresh. simpl. rewrite !length_app. simpl. lia.
           ++ intros Hc. rewrite refresh_calls_send, is_refresh_retried, is_refresh_outbound, Hc.
              unfold after_refresh, refresh_calls. simpl.
              rewrite !List.filter_app, !length_app. simpl.
              rewrite is_refresh_outbound, Hc. simpl.
              unfold refresh_request. rewrite is_refresh_outbound. simpl. lia.
           ++ simpl. rewrite app_nil_r. reflexivity.
           ++ simpl. lia.
           ++ constructor.
        -- destruct (refresh_failure_logs_out net depth c w r1 rt (Some r2)
                       Hretry Hnet1 H401 Hrt Hne Hnet2) as (t & Hrun & Hawait & _).
           { unfold is_401. simpl. apply Z.eqb_neq. exact Hnot401. }
           { intros r2' Heq. inversion Heq. subst r2'. exact Hok. }
           exact (Hlogout t _ Hawait Hrun).
      * destruct (refresh_failure_logs_out net depth c w r1 rt None
                    Hretry Hnet1 H401 Hrt Hne Hnet2) as (t & Hrun & Hawait & _).
        { reflexivity. }
        { intros r2' Heq. discriminate. }
        exact (Hlogout t _ Hawait Hrun).
    + eexists _, _, []. split; [|split; [|split; [|split; [|split]]]].
      * rewrite run_api_S. cbv zeta. fold (outbound w c). rewrite Hnet1.
        enter_handler H401 Hretry. cbn [run send localStorage]. rewrite Hpresent. reflexivity.
      * simpl. rewrite length_app. simpl. lia.
      * intros Hc. rewrite refresh_calls_send, is_refresh_outbound, Hc. lia.
      * simpl. rewrite app_nil_r. reflexivity.
      * simpl. lia.
      * constructor.
  - eexists _, _, []. split; [|split; [|split; [|split; [|split]]]].
    + rewrite run_api_S. cbv zeta. fold (outbound w c).
      rewrite on_answer_settles; [reflexivity|].
      rewrite outbound_retry. exact Hcase.
    + simpl. rewrite length_app. simpl. lia.
    + intros Hc. rewrite refresh_calls_send, is_refresh_outbound, Hc. lia.
    + simpl. rewrite app_nil_r. reflexivity.
    + simpl. lia.
    + constructor.
Qed.

Lemma settles_when_refresh_well_behaved_witness :
  exists r w' waiting,
    run broken_refresh (api 2 (get "/llm/models/")) session = Settles r w' /\
    (length (sent w') <= length (sent session) + 3)%nat /\
    (is_refresh (get "/llm/models/") = false ->
     (refresh_calls w' <= refresh_calls session + 1)%nat) /\
    parked w' = (parked session ++ waiting)%list /\
    (length waiting <= 1)%nat /\
    Forall (fun t => url (awaiting t) = "/auth/logout/") waiting.
Proof.
  apply (settles_when_refresh_well_behaved broken_refresh 0 (get "/llm/models/") session).
  intros history q Hq. unfold broken_refresh. rewrite Hq. simpl.
  split; [discriminate|]. intros H. discriminate.
Defined.

(** ** A refresh call that is rejected *)

(** X6: when the refresh call is rejected (its answer is neither a
    success nor a 401), the caller gets the normalized error of the
    original 401 and the page is sent to [/login]; at that moment both
    tokens are still stored as they were, and one logout has been started
    that waits for the answer to its [POST /auth/logout/]. Both tokens
    are removed when that answer arrives, whatever it is short of another
    401. *)
Theorem refresh_rejected_starts_logout (net : Network) (depth : nat) (c : Config)
    (w : World) (r1 : Response) (rt : string) (answer2 : option Response) :
  _retry c = false ->
  net (sent w ++ [outbound w c])%list (outbound w c) = Some r1 ->
  status r1 = 401 ->
  localStorage w !! "refresh_token" = Some rt ->
  rt <> EmptyString ->
  net (sent w ++ [outbound w c; refresh_request w rt])%list (refresh_request w rt) = answer2 ->
  is_401 {| config := refresh_request w rt; response := answer2 |} = false ->
  (forall r2, answer2 = Some r2 -> validateStatus (status r2) = false) ->
  exists w' t,
    run net (api (S (S depth)) c) w =
      Settles (Rejected (handleError {| config := outbound w c; response := Some r1 |})) w' /\
    href w' = "/login" /\
    localStorage w' = localStorage w /\
    parked w' = (parked w ++ [t])%list /\
    url (awaiting t) = "/auth/logout/" /\
    (forall answer w0,
       is_401 {| config := awaiting t; response := answer |} = false ->
       localStorage (advance (resume t answer) w0).1 !! "access_token" = None /\
       localStorage (advance (resume t answer) w0).1 !! "refresh_token" = None).
Proof.
  intros Hretry Hnet1 Hs1 Hrt Hne Hnet2 Hnot401 Hfail.
  destruct (refresh_failure_logs_out net depth c w r1 rt answer2
              Hretry Hnet1 Hs1 Hrt Hne Hnet2 Hnot401 Hfail) as (t & Hrun & Hawait & Hlater).
  eexists _, t. split; [exact Hrun|].
  split; [reflexivity|]. split; [reflexivity|]. split; [reflexivity|].
  split; [rewrite Hawait; apply url_outbound|].
  intros answer w0 H401. rewrite Hawait in H401.
  destruct (Hlater answer w0 H401) as (w1 & Hadv & Ha & Hr).
  rewrite Hadv. split; assumption.
Qed.

Lemma refresh_rejected_starts_logout_witness :
  exists w' t,
    run broken_refresh (api 2 (get "/llm/models/")) session =
      Settles (Rejected (handleError {| config := outbound session (get "/llm/models/");
                                        response := Some unauthorized |})) w' /\
    href w' = "/login" /\
    localStorage w' = localStorage session /\
    parked w' = (parked session ++ [t])%list /\
    url (awaiting t) = "/auth/logout/" /\
    (forall answer w0,
       is_401 {| config := awaiting t; response := answer |} = false ->
       localStorage (advance (resume t answer) w0).1 !! "access_token" = None /\
       localStorage (advance (resume t answer) w0).1 !! "refresh_token" = None).
Proof.
  apply (refresh_rejected_starts_logout broken_refresh 0 (get "/llm/models/") session
           unauthorized "keep" (Some server_error)).
  - reflexivity.
  - reflexivity.
  - reflexivity.
  - reflexivity.
  - discriminate.
  - reflexivity.
  - reflexivity.
  - intros r2 H. inversion H. reflexivity.
Defined.

(** ** Logout, once and again *)

Lemma logout_settled_removed (net : Network) (depth : nat) (w w1 : World)
    (r : Settled unit) :
  run net (logout (api depth)) w = Settles r w1 ->
  r = Resolved tt /\
  localStorage w1 !! "access_token" = None /\
  localStorage w1 !! "refresh_token" = None.
Proof.
  unfold logout. cbn [run]. rewrite run_mbind.
  destruct (present (localStorage w !! "refresh_token")).
  - rewrite run_mbind.
    destruct (run net (api depth _) w) as [[resp|e] w0|why w0]; cbn [run];
      intros H; inversion H; subst; (split; [reflexivity|]); split; tokens_removed.
  - cbn [run]. intros H. inversion H; subst. (split; [reflexivity|]); split; tokens_removed.
Qed.

Lemma with_storage_id (w : World) (f : gmap string string -> gmap string string) :
  f (localStorage w) = localStorage w -> with_storage f w = w.
Proof. intros H. destruct w. unfold with_storage. simpl in *. rewrite H. reflexivity. Qed.

(** X7: logout is idempotent: once a logout has settled, another logout
    sends nothing to the server and leaves the world exactly as it is. *)
Theorem logout_again_does_nothing (net net' : Network) (depth depth' : nat)
    (w w1 : World) (r : Settled unit) :
  run net (logout (api depth)) w = Settles r w1 ->
  run net' (logout (api depth')) w1 = Settles (Resolved tt) w1.
Proof.
  intros Hfirst.
  destruct (logout_settled_removed net depth w w1 r Hfirst) as (_ & Ha & Hr).
  unfold logout. cbn [run]. rewrite Hr. cbn [present]. rewrite run_mbind. cbn [run].
  f_equal. unfold perform.
  rewrite (with_storage_id w1 (delete "access_token")) by (apply delete_id; exact Ha).
  apply with_storage_id. apply delete_id. exact Hr.
Qed.

Lemma logout_again_does_nothing_witness :
  run offline (logout (api 0)) (final (run broken_refresh (logout (api 3)) session))
  = Settles (Resolved tt) (final (run broken_refresh (logout (api 3)) session)).
Proof.
  apply (logout_again_does_nothing broken_refresh offline 3 0 session
           (final (run broken_refresh (logout (api 3)) session)) (Resolved tt)).
  vm_compute. reflexivity.
Defined.

(** X8: in the world a settled logout leaves, no access token is stored:
    a request the service makes through the axios instance from that
    world goes out exactly as built, without an [Authorization] header,
    while [sendStreamMessage] called in that world sends
    [Authorization: Bearer null]. This is about that world only; a refresh
    call still in flight stores an access token again when its answer
    arrives. *)
Theorem request_after_logout_is_anonymous (net : Network) (depth depth' : nat)
    (w w1 : World) (r : Settled unit) (m u : string) (body : option JsVal) :
  run net (logout (api depth)) w = Settles r w1 ->
  localStorage w1 !! "access_token" = None /\
  (exists k,
     advance (api (S depth') (request m u body)) w1
     = (send (request m u body) w1, Suspended (request m u body) k)) /\
  headers (request m u body) !! "Authorization" = None /\
  (forall baseURL chatRequest,
     headers (stream_request baseURL (localStorage w1 !! "access_token") chatRequest)
       !! "Authorization" = Some "Bearer null").
Proof.
  intros Hfirst.
  destruct (logout_settled_removed net depth w w1 r Hfirst) as (_ & Ha & _).
  split; [exact Ha|]. split; [|split].
  - eexists. cbn [api advance]. rewrite Ha. reflexivity.
  - reflexivity.
  - intros baseURL chatRequest. rewrite Ha.
    unfold stream_request, bearer_or_null. cbn [headers].
    rewrite lookup_insert_ne by discriminate. apply lookup_singleton_eq.
Qed.

Lemma request_after_logout_is_anonymous_witness :
  let w1 := final (run (always ok) (logout (api 1)) session) in
  localStorage w1 !! "access_token" = None /\
  (exists k,
     advance (api 1 (request "get" "/llm/models/" None)) w1
     = (send (request "get" "/llm/models/" None) w1,
        Suspended (request "get" "/llm/models/" None) k)) /\
  headers (request "get" "/llm/models/" None) !! "Authorization" = None /\
  (forall baseURL chatRequest,
     headers (stream_request baseURL (localStorage w1 !! "access_token") chatRequest)
       !! "Authorization" = Some "Bearer null").
Proof.
  apply (request_after_logout_is_anonymous (always ok) 1 0 session
           (final (run (always ok) (logout (api 1)) session)) (Resolved tt)
           "get" "/llm/models/" None).
  vm_compute. reflexivity.
Defined.

(** A refresh call in flight across a logout: its answer, arriving after
    the logout has removed both tokens, stores an access token again. *)
Example refresh_in_flight_outlives_logout :
  let started := advance (api 2 (get "/llm/models/")) session in
  let waiting := deliver started.2 (Some unauthorized) started.1 in
  let after_logout := final (run (always ok) (logout (api 1)) waiting.1) in
  let later := deliver waiting.2 (Some ok) after_logout in
  localStorage after_logout !! "access_token" = None /\
  localStorage later.1 !! "access_token" = Some "fresh" /\
  localStorage later.1 !! "refresh_token" = None.
Proof. cbv zeta. repeat split; vm_compute; reflexivity. Qed.

(** ** Login and registration *)




(** X10: a login that fails while no refresh token is stored is rejected
    with the normalized error of the answer and shows that error's
    message as a toast; nothing is stored, the user and the cache are as
    they were, and the one request is all that was sent. *)
Theorem failed_login_stores_nothing (net : Network) (depth : nat) (body : JsVal)
    (w : World) (answer : option Response) :
  net (sent w ++ [outbound w (post "/auth/login/" (Some body))])%list
      (outbound w (post "/auth/login/" (Some body))) = answer ->
  (forall r, answer = Some r -> validateStatus (status r) = false) ->
  present (localStorage w !! "refresh_token") = false ->
  let e := handleError {| config := outbound w (post "/auth/login/" (Some body));
                          response := answer |} in
  exists w',
    run net (loginMutation (S depth) body) w = Settles (Rejected e) w' /\
    localStorage w' = localStorage w /\
    user w' = user w /\
    queries w' = queries w /\
    notices w' = (notices w ++ [Toast false (message e)])%list /\
    sent w' = (sent w ++ [outbound w (post "/auth/login/" (Some body))])%list.
Proof.
  intros Hnet Hbad Hnone e. unfold loginMutation. rewrite useMutation_run.
  unfold login. rewrite run_mbind, run_api_S. cbv zeta.
  fold (outbound w (post "/auth/login/" (Some body))). rewrite Hnet.
  assert (Hrun : run net (on_answer (api depth) (outbound w (post "/auth/login/" (Some body)))
                            answer)
                   (send (outbound w (post "/auth/login/" (Some body))) w)
                 = Settles (Rejected e)
                     (send (outbound w (post "/auth/login/" (Some body))) w)).
  { unfold on_answer. destruct answer as [r|].
    - rewrite (Hbad r eq_refl). unfold on_rejected.
      destruct (is_401 _ && negb _); [|reflexivity].
      cbn [run send localStorage]. rewrite Hnone. reflexivity.
    - reflexivity. }
  rewrite Hrun. cbn [run foldl]. eexists. split; [reflexivity|].
  subst e. unfold toast_error. rewrite message_truthy. repeat split.
Qed.

Lemma failed_login_stores_nothing_witness :
  let e := handleError {| config := outbound logged_out (post "/auth/login/" (Some credentials));
                          response := Some unauthorized |} in
  exists w',
    run (always unauthorized) (loginMutation 1 credentials) logged_out
      = Settles (Rejected e) w' /\
    localStorage w' = localStorage logged_out /\
    user w' = user logged_out /\
    queries w' = queries logged_out /\
    notices w' = (notices logged_out ++ [Toast false (message e)])%list /\
    sent w' = (sent logged_out
               ++ [outbound logged_out (post "/auth/login/" (Some credentials))])%list.
Proof.
  apply (failed_login_stores_nothing (always unauthorized) 0 credentials logged_out
           (Some unauthorized)).
  - reflexivity.
  - intros r H. inversion H. reflexivity.
  - reflexivity.
Defined.



(** ** [checkAuth] *)

(** X12: at start-up with an access token stored, a profile call that
    fails with anything but a 401 (a server error, or no response at all)
    removes both tokens: [checkAuth] ends with [isLoading] false, the user
    as it was, no token stored, and the one request sent. *)
Theorem checkAuth_failure_clears_tokens (net : Network) (depth : nat) (st : AuthState)
    (answer : option Response) :
  present (localStorage (world st) !! "access_token") = true ->
  net (sent (world st) ++ [outbound (world st) (get "/auth/profile/")])%list
      (outbound (world st) (get "/auth/profile/")) = answer ->
  (forall r, answer = Some r -> validateStatus (status r) = false /\ status r <> 401) ->
  exists st',
    checkAuth net (S depth) st = Some st' /\
    isLoading st' = false /\
    localStorage (world st') !! "access_token" = None /\
    localStorage (world st') !! "refresh_token" = None /\
    user (world st') = user (world st) /\
    sent (world st')
      = (sent (world st) ++ [outbound (world st) (get "/auth/profile/")])%list.
Proof.
  intros Htoken Hnet Hbad. unfold checkAuth. cbv zeta. rewrite Htoken. cbn [negb].
  unfold getProfile, returning_data. rewrite run_mbind, run_api_S. cbv zeta.
  fold (outbound (world st) (get "/auth/profile/")). rewrite Hnet.
  rewrite on_answer_settles.
  - cbn [run]. unfold settle. destruct answer as [r|].
    + destruct (Hbad r eq_refl) as [Hnot2xx _]. rewrite Hnot2xx.
      eexists. split; [reflexivity|]. repeat split; tokens_removed.
    + eexists. split; [reflexivity|]. repeat split; tokens_removed.
  - unfold is_401. cbn [response]. destruct answer as [r|]; [|reflexivity].
    destruct (Hbad r eq_refl) as [_ Hnot401]. apply Z.eqb_neq in Hnot401.
    rewrite Hnot401. reflexivity.
Qed.

Lemma checkAuth_failure_clears_tokens_witness :
  exists st',
    checkAuth offline 1 {| world := session; isLoading := true |} = Some st' /\
    isLoading st' = false /\
    localStorage (world st') !! "access_token" = None /\
    localStorage (world st') !! "refresh_token" = None /\
    user (world st') = user session /\
    sent (world st') = (sent session ++ [outbound session (get "/auth/profile/")])%list.
Proof.
  apply (checkAuth_failure_clears_tokens offline 0 {| world := session; isLoading := true |}
           None).
  - reflexivity.
  - reflexivity.
  - intros r H. discriminate.
Defined.

(** ** [sendStreamMessage] *)

(** X13: the streaming call does not go through the interceptors. Its
    request always carries an [Authorization] header, [Bearer null] when
    no access token is stored; whatever the answer, that request is all
    that happens (no refresh call, nothing stored or removed), and an
    answer that is not 2xx, a 401 included, is reported as
    [HTTP error! status: <status>]. *)
Theorem stream_bypasses_interceptors (net : Network) (baseURL : string)
    (chatRequest : JsVal) (w : World) :
  let c := stream_request baseURL (localStorage w !! "access_token") chatRequest in
  exists result,
    run net (sendStreamMessage baseURL chatRequest) w = Settles result (send c w) /\
    headers c !! "Authorization"
      = Some ("Bearer " +:+ default "null" (localStorage w !! "access_token")) /\
    (forall r, net (sent w ++ [c])%list c = Some r ->
       validateStatus (status r) = false ->
       result = StreamError ("HTTP error! status: " +:+ pretty (status r))) /\
    (forall r, net (sent w ++ [c])%list c = Some r ->
       validateStatus (status r) = true -> result = StreamOf r) /\
    (net (sent w ++ [c])%list c = None -> result = FetchFailed).
Proof.
  intros c.
  assert (Hauth : headers c !! "Authorization"
                  = Some ("Bearer " +:+ default "null" (localStorage w !! "access_token"))).
  { subst c. unfold stream_request, bearer_or_null. cbn [headers].
    rewrite lookup_insert_ne by discriminate. apply lookup_singleton_eq. }
  unfold sendStreamMessage. cbn [run]. fold c.
  destruct (net (sent w ++ [c])%list c) as [r|] eqn:Hnet.
  - destruct (validateStatus (status r)) eqn:Hok; eexists; (split; [reflexivity|]);
      (split; [exact Hauth|]); (split; [|split]);
      try (intros r' Hr' Hok'; inversion Hr'; subst r'; congruence);
      intros Hnone; discriminate.
  - eexists. split; [reflexivity|]. split; [exact Hauth|].
    repeat split; intros; try discriminate; reflexivity.
Qed.

(** ** [refreshConversation] *)

(** X14: [refreshConversation] of conversation [id] makes the next read of
    that conversation and of its messages go to the network, and changes
    nothing for a query under neither of the two keys: the conversation
    list, the models, another conversation. *)
Theorem refreshConversation_invalidates_its_two_keys (id : Z) (w : World) :
  let w' := perform_all (refreshConversation id) w in
  refetches (conversation_key id) (queries w') = true /\
  refetches (messages_key id) (queries w') = true /\
  (forall key,
     key_matches (conversation_key id) key = false ->
     key_matches (messages_key id) key = false ->
     refetches key (queries w') = refetches key (queries w)) /\
  refetches conversations_key (queries w') = refetches conversations_key (queries w) /\
  (forall other, other <> id ->
     refetches (conversation_key other) (queries w')
     = refetches (conversation_key other) (queries w)) /\
  localStorage w' = localStorage w.
Proof.
  cbv zeta. unfold perform_all, refreshConversation. simpl.
  assert (Hother : forall key,
            key_matches (conversation_key id) key = false ->
            key_matches (messages_key id) key = false ->
            refetches key
              (invalidateQueries [KStr "messages"; KNum id]
                 (invalidateQueries [KStr "conversation"; KNum id] (queries w)))
            = refetches key (queries w)).
  { intros key Hc Hm.
    rewrite refetches_invalidate_other by exact Hm.
    apply refetches_invalidate_other. exact Hc. }
  split; [|split; [|split; [|split; [|split]]]].
  - rewrite refetches_invalidate_other by reflexivity.
    apply refetches_invalidate_self.
  - apply (refetches_invalidate_self (messages_key id)).
  - exact Hother.
  - apply Hother; reflexivity.
  - intros other Hne. apply Hother.
    + simpl. rewrite bool_decide_eq_false_2 by congruence. reflexivity.
    + reflexivity.
  - reflexivity.
Qed.

(** ** After a refresh *)



(** ** Logout and what the user is told *)

(** X16: a logout whose POST is answered with anything but a 401 (a 2xx,
    another error status, or nothing at all) completes after that one
    request: both tokens are removed, the cache is emptied, the user is
    unset, and the user is told [Logged out successfully], also when the
    server rejected the call; the rejection only leaves a line on the
    console. *)
Theorem logout_reports_success_whatever_the_answer (net : Network) (depth : nat)
    (w : World) (rt : string) (answer : option Response) :
  localStorage w !! "refresh_token" = Some rt ->
  rt <> EmptyString ->
  net (sent w ++ [outbound w (post "/auth/logout/" (refresh_body rt))])%list
      (outbound w (post "/auth/logout/" (refresh_body rt))) = answer ->
  is_401 {| config := outbound w (post "/auth/logout/" (refresh_body rt));
            response := answer |} = false ->
  exists w',
    run net (logoutMutation (S depth)) w = Settles (Resolved tt) w' /\
    torn_down w' /\
    sent w' = (sent w ++ [outbound w (post "/auth/logout/" (refresh_body rt))])%list /\
    notices w' =
      (notices w
       ++ match settle (outbound w (post "/auth/logout/" (refresh_body rt))) answer with
          | Resolved _ => []
          | Rejected _ => [ConsoleError "Logout error:"]
          end
       ++ [Toast true (JStr "Logged out successfully")])%list.
Proof.
  intros Hrt Hne Hnet H401. unfold logoutMutation. rewrite useMutation_run.
  unfold logout. cbn [run]. rewrite Hrt, (present_Some rt Hne). cbn [default id].
  rewrite !run_mbind, run_api_S. cbv zeta.
  fold (outbound w (post "/auth/logout/" (refresh_body rt))). rewrite Hnet.
  rewrite on_answer_settles by (rewrite H401; reflexivity).
  cbn [run].
  destruct (settle (outbound w (post "/auth/logout/" (refresh_body rt))) answer) as [resp|e];
    cbn [run foldl]; eexists; (split; [reflexivity|]); unfold torn_down;
    repeat split; tokens_removed.
  simpl. rewrite <- app_assoc. reflexivity.
Qed.

Lemma logout_reports_success_whatever_the_answer_witness :
  exists w',
    run offline (logoutMutation 1) session = Settles (Resolved tt) w' /\
    torn_down w' /\
    sent w' = (sent session
               ++ [outbound session (post "/auth/logout/" (refresh_body "keep"))])%list /\
    notices w' =
      (notices session
       ++ match settle (outbound session (post "/auth/logout/" (refresh_body "keep"))) None with
          | Resolved _ => []
          | Rejected _ => [ConsoleError "Logout error:"]
          end
       ++ [Toast true (JStr "Logged out successfully")])%list.
Proof.
  apply (logout_reports_success_whatever_the_answer offline 0 session "keep" None).
  - reflexivity.
  - discriminate.
  - reflexivity.
  - reflexivity.
Defined.
